(** * Listen-together backend: invitations, sessions and playback sync

    A shallow embedding of the Express handlers of
    [src/routes/listen-together.ts] and [src/routes/listen-sessions.ts]
    over the Mongoose models [ListenSession], [ListenTogetherRequest] and
    [User], followed by the properties of the session life cycle that the
    specification states about them.

    The three collections are finite maps from document identifiers to
    documents.  A handler is a function from the store to a response, the
    store it leaves behind and the list of store calls it made. *)

From Stdlib Require Import ZArith QArith.
From stdpp Require Import gmap list strings.

Open Scope Z_scope.
Open Scope string_scope.
Open Scope list_scope.

(** ** Identifiers and instants

    An [ObjectId] is the 96-bit identifier as a number.  The handlers
    compare identifiers through their hexadecimal rendering
    ([x.toString() === userId]); the rendering is injective, so the
    comparison is equality of identifiers.  A [Date] is its number of
    milliseconds since the epoch; the clock readings ([new Date()]) of one
    request are taken as the single instant [now] at which it is served. *)

Abbreviation ObjectId := N (only parsing).
Abbreviation Date := Z (only parsing).

(** ** JSON values of a request body *)

#[local] Unset Elimination Schemes.
Inductive JsValue : Type :=
| JUndefined
| JNull
| JBool (b : bool)
| JNum (x : Q)
| JStr (s : string)
| JArr (items : list JsValue)
| JObj (fields : list (string * JsValue)).
#[local] Set Elimination Schemes.

(** [if (v)]: JavaScript truthiness.  A number of a JSON body is never NaN,
    so zero is the only falsy number; every array and every object is
    truthy, the empty ones included. *)
Definition truthy (v : JsValue) : bool :=
  match v with
  | JUndefined | JNull => false
  | JBool b => b
  | JNum x => negb (Qeq_bool x 0)
  | JStr s => negb (String.eqb s EmptyString)
  | JArr _ | JObj _ => true
  end.

(** ** models/ListenSession.ts

    The [createdAt] and [updatedAt] stamps that [timestamps: true] adds to
    a document are written by Mongoose on save and read by none of the
    handlers below; the records leave them out. *)

Record Track : Type := mkTrack {
  trackId : string;
  title : string;
  artist : string;
  uri : string;
  artwork : option string;
  duration : option Q
}.

Record PlaybackState : Type := mkPlaybackState {
  position : Q;
  isPlaying : bool;
  updatedAt : Date
}.

Record ListenSession : Type := mkListenSession {
  host : ObjectId;
  participants : list ObjectId;
  currentTrack : option Track;
  queue : list Track;
  playbackState : PlaybackState;
  isActive : bool;
  endedAt : option Date
}.

(** ** The request model (status enum, 10 minute default expiry) *)

Inductive RequestStatus : Type := pending | accepted | declined | expired.

Global Instance RequestStatus_eq_dec : EqDecision RequestStatus.
Proof. solve_decision. Defined.

Record ListenTogetherRequest : Type := mkRequest {
  from : ObjectId;
  to : ObjectId;
  status : RequestStatus;
  sessionId : option ObjectId;
  expiresAt : Date
}.

(** [default: () => new Date(Date.now() + 10 * 60 * 1000)] *)
Definition defaultExpiresAt (now : Date) : Date := now + 10 * 60 * 1000.

(** Modelled from the spec: the [User] model ([models/User] is imported by
    both routers but is not among the sources).  Only the three fields the
    handlers touch are kept: the friend set, the inbound invitation
    identifiers and the active-session pointer. *)
Record User : Type := mkUser {
  friends : list ObjectId;
  listenTogetherRequests : list ObjectId;
  activeListenSession : option ObjectId
}.

(** ** The store *)

Record Db : Type := mkDb {
  users : gmap N User;
  sessions : gmap N ListenSession;
  requests : gmap N ListenTogetherRequest
}.

Definition with_users (f : gmap N User → gmap N User) (db : Db) : Db :=
  mkDb (f (users db)) (sessions db) (requests db).
Definition with_sessions (f : gmap N ListenSession → gmap N ListenSession) (db : Db) : Db :=
  mkDb (users db) (f (sessions db)) (requests db).
Definition with_requests
    (f : gmap N ListenTogetherRequest → gmap N ListenTogetherRequest) (db : Db) : Db :=
  mkDb (users db) (sessions db) (f (requests db)).

(** Field assignments on a loaded document. *)
Definition set_activeListenSession (v : option ObjectId) (u : User) : User :=
  mkUser (friends u) (listenTogetherRequests u) v.
Definition set_listenTogetherRequests (l : list ObjectId) (u : User) : User :=
  mkUser (friends u) l (activeListenSession u).

Definition set_participants (l : list ObjectId) (s : ListenSession) : ListenSession :=
  mkListenSession (host s) l (currentTrack s) (queue s) (playbackState s)
                  (isActive s) (endedAt s).
Definition set_currentTrack (t : option Track) (s : ListenSession) : ListenSession :=
  mkListenSession (host s) (participants s) t (queue s) (playbackState s)
                  (isActive s) (endedAt s).
Definition set_queue (q : list Track) (s : ListenSession) : ListenSession :=
  mkListenSession (host s) (participants s) (currentTrack s) q (playbackState s)
                  (isActive s) (endedAt s).
Definition set_playbackState (p : PlaybackState) (s : ListenSession) : ListenSession :=
  mkListenSession (host s) (participants s) (currentTrack s) (queue s) p
                  (isActive s) (endedAt s).
(** [{ isActive: false, endedAt: new Date() }] *)
Definition set_ended (now : Date) (s : ListenSession) : ListenSession :=
  mkListenSession (host s) (participants s) (currentTrack s) (queue s)
                  (playbackState s) false (Some now).

Definition set_position (x : Q) (p : PlaybackState) : PlaybackState :=
  mkPlaybackState x (isPlaying p) (updatedAt p).
Definition set_isPlaying (b : bool) (p : PlaybackState) : PlaybackState :=
  mkPlaybackState (position p) b (updatedAt p).
Definition set_updatedAt (d : Date) (p : PlaybackState) : PlaybackState :=
  mkPlaybackState (position p) (isPlaying p) d.

Definition set_status (st : RequestStatus) (r : ListenTogetherRequest)
    : ListenTogetherRequest :=
  mkRequest (from r) (to r) st (sessionId r) (expiresAt r).
Definition set_sessionId (sid : option ObjectId) (r : ListenTogetherRequest)
    : ListenTogetherRequest :=
  mkRequest (from r) (to r) (status r) sid (expiresAt r).

(** ** Responses *)

Inductive Body : Type :=
| Message (message : string)
| ActiveJson (session : option ListenSession)
| PlaybackJson (message : string) (playback : PlaybackState) (track : option Track)
| AcceptedJson (message : string) (sid : ObjectId) (session : ListenSession).

(** [res.status(code).json(body)]; a bare [res.json] answers 200. *)
Inductive Response : Type := Res (code : N) (body : Body).

(** ** Handlers as store computations

    Every call a handler makes on a model is recorded, reads included, in
    the order the handler awaits them. *)

Inductive StoreCall : Type :=
| User_findById (id : ObjectId)
| User_save (id : ObjectId)
| User_updateMany (ids : list ObjectId)
| ListenSession_findById (id : ObjectId)
| ListenSession_findByIdAndUpdate (id : ObjectId)
| ListenSession_save (id : ObjectId)
| Request_findById (id : ObjectId)
| Request_save (id : ObjectId).

Definition Handler (A : Type) : Type := Db → A * Db * list StoreCall.

Definition ret {A} (a : A) : Handler A := λ db, (a, db, []).

Definition bind {A B} (m : Handler A) (k : A → Handler B) : Handler B :=
  λ db, match m db with
        | (a, db1, l1) =>
            match k a db1 with
            | (b, db2, l2) => (b, db2, l1 ++ l2)
            end
        end.

Declare Scope handler_scope.
Delimit Scope handler_scope with handler.
Notation "x <- c ;; k" := (bind c (λ x, k))
  (at level 100, c at next level, right associativity) : handler_scope.
Notation "c ;;; k" := (bind c (λ _, k))
  (at level 100, right associativity) : handler_scope.

Definition response {A} (h : A * Db * list StoreCall) : A := h.1.1.
Definition store_after {A} (h : A * Db * list StoreCall) : Db := h.1.2.
Definition calls {A} (h : A * Db * list StoreCall) : list StoreCall := h.2.

(** *** Model calls

    [save] on a loaded document writes the paths the handler assigned, so
    it is an update of the stored document by those assignments. *)

Definition findUser (id : ObjectId) : Handler (option User) :=
  λ db, (users db !! id, db, [User_findById id]).

Definition saveUser (id : ObjectId) (assign : User → User) : Handler unit :=
  λ db, (tt, with_users (alter assign id) db, [User_save id]).

(** [User.updateMany({ _id: { $in: ids } }, { $unset: { activeListenSession: 1 } })] *)
Definition unsetActiveOf (ids : list ObjectId) : Handler unit :=
  λ db, (tt,
         with_users (λ us, foldr (alter (set_activeListenSession None)) us ids) db,
         [User_updateMany ids]).

Definition findSession (id : ObjectId) : Handler (option ListenSession) :=
  λ db, (sessions db !! id, db, [ListenSession_findById id]).

Definition saveSession (id : ObjectId) (assign : ListenSession → ListenSession)
    : Handler unit :=
  λ db, (tt, with_sessions (alter assign id) db, [ListenSession_save id]).

(** [new ListenSession({...})] followed by [save()]: the document is
    inserted under the identifier it was constructed with. *)
Definition insertSession (id : ObjectId) (s : ListenSession) : Handler unit :=
  λ db, (tt, with_sessions (insert id s) db, [ListenSession_save id]).

(** [ListenSession.findByIdAndUpdate(id, { isActive: false, endedAt: new Date() })] *)
Definition endSessionById (now : Date) (id : ObjectId) : Handler unit :=
  λ db, (tt, with_sessions (alter (set_ended now) id) db,
         [ListenSession_findByIdAndUpdate id]).

Definition findRequest (id : ObjectId) : Handler (option ListenTogetherRequest) :=
  λ db, (requests db !! id, db, [Request_findById id]).

Definition saveRequest (id : ObjectId)
    (assign : ListenTogetherRequest → ListenTogetherRequest) : Handler unit :=
  λ db, (tt, with_requests (alter assign id) db, [Request_save id]).

Open Scope handler_scope.

(** ** routes/listen-sessions.ts *)

(** [GET /active].  The two [populate] calls on the session query only
    shape the JSON of the answer. *)
Definition getActive (userId : option ObjectId) : Handler Response :=
  match userId with
  | None => ret (Res 401 (Message "Unauthorized"))
  | Some uid =>
      user <- findUser uid ;;
      match user with
      | None => ret (Res 200 (ActiveJson None))
      | Some u =>
          match activeListenSession u with
          | None => ret (Res 200 (ActiveJson None))
          | Some sid =>
              session <- findSession sid ;;
              let stale :=
                (* Clean up stale reference *)
                (saveUser uid (set_activeListenSession None) ;;;
                 ret (Res 200 (ActiveJson None))) in
              match session with
              | None => stale
              | Some s =>
                  if negb (isActive s) then stale
                  else ret (Res 200 (ActiveJson (Some s)))
              end
          end
      end
  end.

(** [POST /:sessionId/sync]

    [req.body] is destructured into four properties; a property the body
    does not carry is [JUndefined]. *)
Record SyncBody : Type := mkSyncBody {
  body_currentTrack : JsValue;
  body_position : JsValue;
  body_isPlaying : JsValue;
  body_queue : JsValue
}.

Section Sync.

(** Assigning a body value to the [currentTrack] or [queue] path casts it
    by the schema of [models/ListenSession.ts]; the casting itself is
    Mongoose's and is taken as given.  A value that does not cast makes
    [session.save()] reject, which the handler's [catch] answers with
    500, nothing having been written. *)
Variable castTrack : JsValue → option Track.
Variable castQueue : JsValue → option (list Track).

(** The assignments of lines 100-116 on the loaded document, in order. *)
Definition assignPosition (v : JsValue) (s : ListenSession) : ListenSession :=
  match v with
  | JNum x => set_playbackState (set_position x (playbackState s)) s
  | _ => s
  end.

Definition assignIsPlaying (v : JsValue) (s : ListenSession) : ListenSession :=
  match v with
  | JBool b => set_playbackState (set_isPlaying b (playbackState s)) s
  | _ => s
  end.

Definition assignCurrentTrack (v : JsValue) (s : ListenSession)
    : option ListenSession :=
  if truthy v then (λ t, set_currentTrack (Some t) s) <$> castTrack v
  else Some s.

Definition assignQueue (v : JsValue) (s : ListenSession) : option ListenSession :=
  if truthy v then (λ q, set_queue q s) <$> castQueue v
  else Some s.

Definition stampUpdatedAt (now : Date) (s : ListenSession) : ListenSession :=
  set_playbackState (set_updatedAt now (playbackState s)) s.

Definition applyPatch (now : Date) (body : SyncBody) (s : ListenSession)
    : option ListenSession :=
  s1 ← assignCurrentTrack (body_currentTrack body)
         (assignIsPlaying (body_isPlaying body)
            (assignPosition (body_position body) s));
  s2 ← assignQueue (body_queue body) s1;
  Some (stampUpdatedAt now s2).

Definition sync (now : Date) (sessionId : ObjectId) (userId : option ObjectId)
    (body : SyncBody) : Handler Response :=
  match userId with
  | None => ret (Res 401 (Message "Unauthorized"))
  | Some uid =>
      session <- findSession sessionId ;;
      match session with
      | None => ret (Res 404 (Message "Session not found"))
      | Some s =>
          if negb (isActive s) then
            ret (Res 400 (Message "Session is no longer active"))
          else if negb (host s =? uid)%N then
            (* Only host can update playback state *)
            ret (Res 403 (Message "Only the host can update playback state"))
          else
            match applyPatch now body s with
            | None => ret (Res 500 (Message "Failed to update playback state"))
            | Some s' =>
                saveSession sessionId (λ _, s') ;;;
                ret (Res 200 (PlaybackJson "Playback state updated"
                                           (playbackState s') (currentTrack s')))
            end
      end
  end.

End Sync.

(** [p.toString() !== userId] as a filter predicate. *)
Definition others (uid : ObjectId) (l : list ObjectId) : list ObjectId :=
  List.filter (λ p, negb (p =? uid)%N) l.

(** [POST /:sessionId/leave] *)
Definition leave (now : Date) (sessionId : ObjectId) (userId : option ObjectId)
    : Handler Response :=
  match userId with
  | None => ret (Res 401 (Message "Unauthorized"))
  | Some uid =>
      session <- findSession sessionId ;;
      user <- findUser uid ;;
      match session, user with
      | None, _ => ret (Res 404 (Message "Session not found"))
      | Some _, None => ret (Res 404 (Message "User not found"))
      | Some s, Some u =>
          (* Remove user from participants *)
          let remaining := others uid (participants s) in
          (* If host leaves or all participants left, end the session *)
          let ending := (host s =? uid)%N || (length remaining =? 0)%nat in
          (if ending then unsetActiveOf remaining else ret tt) ;;;
          saveSession sessionId
            (λ d, let d := set_participants remaining d in
                  if ending then set_ended now d else d) ;;;
          (* Remove session from user *)
          saveUser uid (set_activeListenSession None) ;;;
          ret (Res 200 (Message "Left session successfully"))
      end
  end.

(** [POST /:sessionId/end] *)
Definition endSession (now : Date) (sessionId : ObjectId) (userId : option ObjectId)
    : Handler Response :=
  match userId with
  | None => ret (Res 401 (Message "Unauthorized"))
  | Some uid =>
      session <- findSession sessionId ;;
      match session with
      | None => ret (Res 404 (Message "Session not found"))
      | Some s =>
          if negb (host s =? uid)%N then
            ret (Res 403 (Message "Only the host can end the session"))
          else
            saveSession sessionId (set_ended now) ;;;
            unsetActiveOf (participants s) ;;;
            ret (Res 200 (Message "Session ended successfully"))
      end
  end.

(** ** routes/listen-together.ts *)

(** [(id) => id.toString() !== requestId] on the inbound identifiers. *)
Definition withoutRequest (requestId : ObjectId) (l : list ObjectId) : list ObjectId :=
  List.filter (λ i, negb (i =? requestId)%N) l.

(** The document of lines 151-161. *)
Definition newSession (now : Date) (hostId participantId : ObjectId) : ListenSession :=
  {| host := hostId;
     participants := [hostId; participantId];
     currentTrack := None;
     queue := [];
     playbackState := {| position := 0%Q; isPlaying := false; updatedAt := now |};
     isActive := true;
     endedAt := None |}.

(** End any existing active session a user points at. *)
Definition endPointed (now : Date) (u : User) : Handler unit :=
  match activeListenSession u with
  | Some sid => endSessionById now sid
  | None => ret tt
  end.

(** [POST /requests/:requestId/accept]; [newId] is the identifier that
    [new ListenSession] draws for the document it constructs. *)
Definition accept (now : Date) (newId : ObjectId) (requestId : ObjectId)
    (userId : option ObjectId) : Handler Response :=
  match userId with
  | None => ret (Res 401 (Message "Unauthorized"))
  | Some uid =>
      request <- findRequest requestId ;;
      match request with
      | None => ret (Res 404 (Message "Request not found"))
      | Some r =>
          if negb (to r =? uid)%N then
            ret (Res 403 (Message "Unauthorized to accept this request"))
          else if negb (bool_decide (status r = pending)) then
            ret (Res 400 (Message "Request is no longer pending"))
          else if (expiresAt r <? now)%Z then
            saveRequest requestId (set_status expired) ;;;
            ret (Res 400 (Message "Request has expired"))
          else
            hostUser <- findUser (from r) ;;
            participantUser <- findUser uid ;;
            match hostUser, participantUser with
            | Some h, Some p =>
                (* End any existing active sessions for both users *)
                endPointed now h ;;;
                endPointed now p ;;;
                (* Create new session *)
                let session := newSession now (from r) uid in
                insertSession newId session ;;;
                (* Update request *)
                saveRequest requestId
                  (λ d, set_sessionId (Some newId) (set_status accepted d)) ;;;
                (* Update both users' active session *)
                saveUser (from r) (set_activeListenSession (Some newId)) ;;;
                saveUser uid
                  (λ d, set_listenTogetherRequests
                          (withoutRequest requestId (listenTogetherRequests p))
                          (set_activeListenSession (Some newId) d)) ;;;
                ret (Res 200 (AcceptedJson "Request accepted" newId session))
            | _, _ => ret (Res 404 (Message "User not found"))
            end
      end
  end.

(** [POST /requests/:requestId/decline] *)
Definition decline (requestId : ObjectId) (userId : option ObjectId)
    : Handler Response :=
  match userId with
  | None => ret (Res 401 (Message "Unauthorized"))
  | Some uid =>
      request <- findRequest requestId ;;
      match request with
      | None => ret (Res 404 (Message "Request not found"))
      | Some r =>
          if negb (to r =? uid)%N then
            ret (Res 403 (Message "Unauthorized to decline this request"))
          else
            saveRequest requestId (set_status declined) ;;;
            user <- findUser uid ;;
            (* Remove from user's requests *)
            match user with
            | Some u =>
                saveUser uid
                  (set_listenTogetherRequests
                     (withoutRequest requestId (listenTogetherRequests u)))
            | None => ret tt
            end ;;;
            ret (Res 200 (Message "Request declined"))
      end
  end.

Close Scope handler_scope.

(** ** The remaining handlers

    [GET /:sessionId] and [GET /friends] answer with populated [User]
    documents, whose fields are not among the sources; they are left out. *)

Inductive Answer (A : Type) : Type :=
| Failure (code : N) (message : string)
| Success (payload : A).
Arguments Failure {A} code message.
Arguments Success {A} payload.

(** [session.participants.some((p) => p.toString() === userId)] *)
Definition isParticipant (uid : ObjectId) (s : ListenSession) : bool :=
  existsb (λ p, (p =? uid)%N) (participants s).

(** The JSON of [GET /:sessionId/state]. *)
Record StateJson : Type := mkStateJson {
  state_currentTrack : option Track;
  state_playbackState : PlaybackState;
  state_queue : list Track;
  state_host : ObjectId
}.

(** [GET /:sessionId/state] *)
Definition readState (sessionId : ObjectId) (userId : option ObjectId)
    : Handler (Answer StateJson) :=
  match userId with
  | None => ret (Failure 401 "Unauthorized")
  | Some uid =>
      (session <- findSession sessionId ;;
       match session with
       | None => ret (Failure 404 "Session not found")
       | Some s =>
           (* Check if user is part of this session *)
           if negb (isParticipant uid s) then
             ret (Failure 403 "You are not part of this session")
           else
             ret (Success (mkStateJson (currentTrack s) (playbackState s)
                                       (queue s) (host s)))
       end)%handler
  end.

(** The two handlers below query the request collection by filter.  They
    are given by their answer and the store they leave. *)

(** The filter [{ from: fromUserId, to: userId, status: 'pending' }]. *)
Definition pendingBetween (fromId toId : ObjectId) (r : ListenTogetherRequest) : bool :=
  (from r =? fromId)%N && (to r =? toId)%N && bool_decide (status r = pending).

(** [if (existingRequest)] on the result of [findOne] with that filter. *)
Definition existingRequest (fromId toId : ObjectId) (db : Db) : bool :=
  existsb (λ kr, pendingBetween fromId toId kr.2) (map_to_list (requests db)).

(** [fromUser.friends.some((id) => id.toString() === userId)] *)
Definition areFriends (fromUser : User) (userId : ObjectId) : bool :=
  existsb (λ i, (i =? userId)%N) (friends fromUser).

(** The document of lines 51-55, with the schema's default [expiresAt]. *)
Definition newRequest (now : Date) (fromId toId : ObjectId) : ListenTogetherRequest :=
  {| from := fromId; to := toId; status := pending; sessionId := None;
     expiresAt := defaultExpiresAt now |}.

(** [POST /invite/:userId]; [userId] is the route parameter, [fromUserId]
    the caller, and [newId] the identifier that [new ListenTogetherRequest]
    draws. *)
Definition invite (now : Date) (newId : ObjectId) (userId : ObjectId)
    (fromUserId : option ObjectId) (db : Db) : Answer ObjectId * Db :=
  match fromUserId with
  | None => (Failure 401 "Unauthorized", db)
  | Some fid =>
      if (userId =? fid)%N then
        (Failure 400 "Cannot send request to yourself", db)
      else
        (* Check if both users exist *)
        match users db !! fid, users db !! userId with
        | Some fromUser, Some toUser =>
            (* Check if they are friends *)
            if negb (areFriends fromUser userId) then
              (Failure 403 "You can only invite friends to listen together", db)
            (* Check if there's already a pending request *)
            else if existingRequest fid userId db then
              (Failure 400 "Request already sent", db)
            else
              (Success newId,
               (* Add to user's incoming requests *)
               with_users
                 (alter (set_listenTogetherRequests
                           (listenTogetherRequests toUser ++ [newId])) userId)
                 (* Create new request *)
                 (with_requests (insert newId (newRequest now fid userId)) db))
        | _, _ => (Failure 404 "User not found", db)
        end
  end.

(** The filter of [GET /requests]:
    [{ to: userId, status: 'pending', expiresAt: { $gt: new Date() } }]. *)
Definition listed (now : Date) (uid : ObjectId) (r : ListenTogetherRequest) : bool :=
  (to r =? uid)%N && bool_decide (status r = pending) && (now <? expiresAt r)%Z.

(** [GET /requests]: the documents the query selects, by identifier.  The
    handler sends them newest first by [createdAt], with [from] populated. *)
Definition listRequests (now : Date) (userId : option ObjectId) (db : Db)
    : Answer (gmap N ListenTogetherRequest) :=
  match userId with
  | None => Failure 401 "Unauthorized"
  | Some uid => Success (filter (λ kr, listed now uid kr.2 = true) (requests db))
  end.

(** ** A sample store

    Users 1 (host of session 10) and 2 are friends; user 3 sits alone in
    session 11.  Request 20 from 1 to 2 was accepted into session 10,
    request 21 from 3 to 2 is pending and expires at instant 1000. *)

Definition track_a : Track :=
  mkTrack "t1" "Blue in Green" "Miles Davis" "spotify:track:t1" None None.

Definition session10 : ListenSession :=
  {| host := 1%N; participants := [1%N; 2%N]; currentTrack := Some track_a;
     queue := [track_a];
     playbackState := {| position := 12%Q; isPlaying := true; updatedAt := 500 |};
     isActive := true; endedAt := None |}.

Definition session11 : ListenSession :=
  {| host := 3%N; participants := [3%N]; currentTrack := None; queue := [];
     playbackState := {| position := 0%Q; isPlaying := false; updatedAt := 400 |};
     isActive := true; endedAt := None |}.

Definition sample : Db :=
  {| users := {[ 1%N := mkUser [2%N] [] (Some 10%N);
                 2%N := mkUser [1%N; 3%N] [21%N] (Some 10%N);
                 3%N := mkUser [2%N] [] (Some 11%N) ]};
     sessions := {[ 10%N := session10; 11%N := session11 ]};
     requests := {[ 20%N := mkRequest 1%N 2%N accepted (Some 10%N) 900;
                    21%N := mkRequest 3%N 2%N pending None 1000 ]} |}.

(** One casting, for the examples: an object casts to a track when its
    [id], [title], [artist] and [uri] properties are strings. *)
Fixpoint prop (name : string) (fields : list (string * JsValue)) : JsValue :=
  match fields with
  | [] => JUndefined
  | (k, v) :: rest => if String.eqb k name then v else prop name rest
  end.

Definition objectTrack (v : JsValue) : option Track :=
  match v with
  | JObj fs =>
      match prop "id" fs, prop "title" fs, prop "artist" fs, prop "uri" fs with
      | JStr i, JStr t, JStr a, JStr u => Some (mkTrack i t a u None None)
      | _, _, _, _ => None
      end
  | _ => None
  end.

Definition arrayQueue (v : JsValue) : option (list Track) :=
  match v with
  | JArr items => mapM objectTrack items
  | _ => None
  end.

Definition json_track_b : JsValue :=
  JObj [("id", JStr "t2"); ("title", JStr "So What");
        ("artist", JStr "Miles Davis"); ("uri", JStr "spotify:track:t2")].

Definition track_b : Track :=
  mkTrack "t2" "So What" "Miles Davis" "spotify:track:t2" None None.

(** ** The specification's reading of the operations *)

(** The user's pointer is stale: the session it names is gone or ended. *)
Definition stalePointer (db : Db) (sid : ObjectId) : bool :=
  match sessions db !! sid with
  | None => true
  | Some s => negb (isActive s)
  end.

(** A typed patch: each field absent or carrying a value of its type. *)
Record Patch : Type := mkPatch {
  patch_position : option Q;
  patch_isPlaying : option bool;
  patch_currentTrack : option Track;
  patch_queue : option (list Track)
}.

(** What the specification says a patch does to a session: a field that is
    present replaces the old value, an absent one keeps it, and the
    playback stamp is always [now]. *)
Definition patched (now : Date) (p : Patch) (s : ListenSession) : ListenSession :=
  {| host := host s;
     participants := participants s;
     currentTrack :=
       match patch_currentTrack p with Some t => Some t | None => currentTrack s end;
     queue := default (queue s) (patch_queue p);
     playbackState :=
       {| position := default (position (playbackState s)) (patch_position p);
          isPlaying := default (isPlaying (playbackState s)) (patch_isPlaying p);
          updatedAt := now |};
     isActive := isActive s;
     endedAt := endedAt s |}.

(** The request body carries the typed patch: an absent field is
    [undefined], a position is a number, a play flag a boolean, and a track
    or a queue is a truthy value that the schema casts to it. *)
Definition carries (castTrack : JsValue → option Track)
    (castQueue : JsValue → option (list Track)) (body : SyncBody) (p : Patch) : Prop :=
  body_position body = from_option JNum JUndefined (patch_position p) ∧
  body_isPlaying body = from_option JBool JUndefined (patch_isPlaying p) ∧
  match patch_currentTrack p with
  | None => body_currentTrack body = JUndefined
  | Some t => truthy (body_currentTrack body) = true ∧
              castTrack (body_currentTrack body) = Some t
  end ∧
  match patch_queue p with
  | None => body_queue body = JUndefined
  | Some q => truthy (body_queue body) = true ∧ castQueue (body_queue body) = Some q
  end.

(** The sessions collection once the session a user points at, if any,
    has been ended. *)
Definition endedOf (now : Date) (u : User)
    (ss : gmap N ListenSession) : gmap N ListenSession :=
  match activeListenSession u with
  | Some sid => alter (set_ended now) sid ss
  | None => ss
  end.

(** The store an invitation leaves when it is sent. *)
Definition invited (now : Z) (newId userId fid : N) (toUser : User) (db : Db) : Db :=
  with_users
    (alter (set_listenTogetherRequests (listenTogetherRequests toUser ++ [newId]))
           userId)
    (with_requests (insert newId (newRequest now fid userId)) db).

(** ** The interface as calls on the store *)

Inductive ApiCall : Type :=
| InviteFriend (now : Date) (newId userId : ObjectId)
| AcceptInvitation (now : Date) (newId requestId : ObjectId)
| DeclineInvitation (requestId : ObjectId)
| GetActiveSession
| SyncPlayback (now : Date) (sessionId : ObjectId) (body : SyncBody)
| ReadPlaybackState (sessionId : ObjectId)
| LeaveSession (now : Date) (sessionId : ObjectId)
| EndSession (now : Date) (sessionId : ObjectId).

(** The store a call leaves, whatever it answers. *)
Definition serve (castTrack : JsValue → option Track)
    (castQueue : JsValue → option (list Track))
    (caller : option ObjectId) (c : ApiCall) (db : Db) : Db :=
  match c with
  | InviteFriend now newId userId => (invite now newId userId caller db).2
  | AcceptInvitation now newId requestId =>
      store_after (accept now newId requestId caller db)
  | DeclineInvitation requestId => store_after (decline requestId caller db)
  | GetActiveSession => store_after (getActive caller db)
  | SyncPlayback now sessionId body =>
      store_after (sync castTrack castQueue now sessionId caller body db)
  | ReadPlaybackState sessionId => store_after (readState sessionId caller db)
  | LeaveSession now sessionId => store_after (leave now sessionId caller db)
  | EndSession now sessionId => store_after (endSession now sessionId caller db)
  end.

(** A history of calls, oldest first, each with its caller. *)
Definition replay (castTrack : JsValue → option Track)
    (castQueue : JsValue → option (list Track))
    (history : list (option ObjectId * ApiCall)) (db : Db) : Db :=
  foldl (λ d cc, serve castTrack castQueue cc.1 cc.2 d) db history.

(** The identifier a call draws for a new document names no stored one. *)
Definition drawsFresh (c : ApiCall) (db : Db) : bool :=
  match c with
  | InviteFriend _ newId _ => bool_decide (newId ∉ dom (requests db))
  | AcceptInvitation _ newId _ => bool_decide (newId ∉ dom (sessions db))
  | _ => true
  end.

Fixpoint freshHistory (castTrack : JsValue → option Track)
    (castQueue : JsValue → option (list Track))
    (history : list (option ObjectId * ApiCall)) (db : Db) : bool :=
  match history with
  | [] => true
  | cc :: rest =>
      drawsFresh cc.2 db &&
      freshHistory castTrack castQueue rest (serve castTrack castQueue cc.1 cc.2 db)
  end.

(** *** What one call can do to a stored document *)

(** A session keeps its host; its participants stay or lose one user, who
    is not the host if the session is still active; its activity stays as
    it was or it becomes inactive with [endedAt] set. *)
Definition session_step (s s' : ListenSession) : Prop :=
  host s' = host s ∧
  (participants s' = participants s ∨
   ∃ u, participants s' = others u (participants s) ∧
        (isActive s' = true → u ≠ host s)) ∧
  ((isActive s' = isActive s ∧ endedAt s' = endedAt s) ∨
   (isActive s' = false ∧ is_Some (endedAt s'))).

(** An invitation keeps its sender, recipient and deadline.  Its status
    and session stay, or it was pending and is now expired, or it was
    pending and is now accepted into a session, or it is now declined. *)
Definition request_step (r r' : ListenTogetherRequest) : Prop :=
  from r' = from r ∧ to r' = to r ∧ expiresAt r' = expiresAt r ∧
  ((status r' = status r ∧ sessionId r' = sessionId r) ∨
   (status r = pending ∧ status r' = expired ∧ sessionId r' = sessionId r) ∨
   (status r = pending ∧ status r' = accepted ∧ is_Some (sessionId r')) ∨
   (status r' = declined ∧ sessionId r' = sessionId r)).

(** *** Invariants of the store *)

(** A session is active exactly when it has no [endedAt], and an active
    session lists its host among its participants. *)
Definition session_ok (s : ListenSession) : Prop :=
  (isActive s = true ↔ endedAt s = None) ∧
  (isActive s = true → host s ∈ participants s).

Definition sessions_ok (db : Db) : Prop :=
  ∀ k s, sessions db !! k = Some s → session_ok s.

(** At most one pending invitation from a sender to a recipient. *)
Definition unique_pending (db : Db) : Prop :=
  ∀ i j ri rj,
    requests db !! i = Some ri → requests db !! j = Some rj →
    status ri = pending → status rj = pending →
    from ri = from rj → to ri = to rj → i = j.

(** A pending invitation has no session yet. *)
Definition pending_unbound (db : Db) : Prop :=
  ∀ k r, requests db !! k = Some r → status r = pending → sessionId r = None.

(** Every pointer names a stored session, and a pointer to an active
    session is held by one of its participants. *)
Definition pointers_sound (db : Db) : Prop :=
  ∀ v u sid,
    users db !! v = Some u → activeListenSession u = Some sid →
    ∃ s, sessions db !! sid = Some s ∧ (isActive s = true → v ∈ participants s).

(** A history on the sample store: user 2 accepts request 21 into session
    12, the host of session 10 tries to sync it, user 2 leaves session 12
    and its host ends it. *)
Definition sample_history : list (option N * ApiCall) :=
  [ (Some 2%N, AcceptInvitation 950 12%N 21%N);
    (Some 1%N, SyncPlayback 960 10%N
                 (mkSyncBody JUndefined (JNum 3) (JBool true) JUndefined));
    (Some 2%N, LeaveSession 970 12%N);
    (Some 3%N, EndSession 980 12%N) ].

(** Another one: user 2 declines request 20, which was accepted; user 2
    invites user 3, who accepts into session 13. *)
Definition sample_history_invitations : list (option N * ApiCall) :=
  [ (Some 2%N, DeclineInvitation 20%N);
    (Some 2%N, InviteFriend 990 22%N 3%N);
    (Some 3%N, AcceptInvitation 995 13%N 22%N) ].

(** * Properties *)

(** ** Store lemmas *)

Lemma set_activeListenSession_idemp (v : option N) (u : User) :
  set_activeListenSession v (set_activeListenSession v u) = set_activeListenSession v u.
Proof. reflexivity. Qed.

Lemma set_ended_idemp (now : Z) (s : ListenSession) :
  set_ended now (set_ended now s) = set_ended now s.
Proof. reflexivity. Qed.

(** [updateMany] with [$unset]: the listed users lose their pointer, the
    others are untouched. *)
Lemma lookup_unset_not_elem (ids : list N) (us : gmap N User) (k : N) :
  k ∉ ids →
  foldr (alter (set_activeListenSession None)) us ids !! k = us !! k.
Proof.
  induction ids as [|i ids IH]; intros Hin; [done|].
  apply not_elem_of_cons in Hin as [Hne Hin].
  cbn [foldr]. rewrite lookup_alter_ne by done. by apply IH.
Qed.

Lemma lookup_unset_elem (ids : list N) (us : gmap N User) (k : N) :
  k ∈ ids →
  foldr (alter (set_activeListenSession None)) us ids !! k
  = set_activeListenSession None <$> us !! k.
Proof.
  induction ids as [|i ids IH]; intros Hin; [by apply elem_of_nil in Hin|].
  cbn [foldr]. destruct (decide (i = k)) as [Heq|Hne].
  - subst i. rewrite lookup_alter_eq. destruct (decide (k ∈ ids)) as [Hk|Hk].
    + rewrite IH by done. by destruct (us !! k).
    + by rewrite lookup_unset_not_elem.
  - rewrite lookup_alter_ne by done. apply IH.
    apply elem_of_cons in Hin as [Hin|Hin]; [congruence|done].
Qed.

Lemma others_spec (uid : N) (l : list N) (p : N) :
  p ∈ others uid l ↔ p ∈ l ∧ p ≠ uid.
Proof.
  unfold others. rewrite !list_elem_of_In, filter_In.
  rewrite negb_true_iff, N.eqb_neq. done.
Qed.

Lemma others_not_elem (uid : N) (l : list N) : uid ∉ l → others uid l = l.
Proof.
  unfold others. induction l as [|p l IH]; intros Hn; [done|].
  cbn [List.filter]. destruct (N.eqb_spec p uid) as [->|Hne]; [set_solver|].
  cbn [negb]. f_equal. apply IH. set_solver.
Qed.

(** Running a handler: unfold the computation down to the store lookups. *)
Ltac run :=
  cbn [getActive sync leave endSession accept decline endPointed
       bind ret findUser saveUser unsetActiveOf findSession saveSession
       insertSession endSessionById findRequest saveRequest
       response store_after calls fst snd app
       with_users with_sessions with_requests users sessions requests].

(** ** GetActive *)

(** C5. A user whose pointer names a session that is gone or no longer
    active is told there is no active session, and the pointer is cleared
    by that call: the handler looks the session up and saves the user.  A
    second call answers the same from the absent pointer alone: it reads
    the user, makes no other store call and leaves the store as it is. *)
Theorem getActive_read_repair (db : Db) (uid sid : N) (u : User) :
  users db !! uid = Some u →
  activeListenSession u = Some sid →
  stalePointer db sid = true →
  let first := getActive (Some uid) db in
  let second := getActive (Some uid) (store_after first) in
  response first = Res 200 (ActiveJson None) ∧
  users (store_after first) !! uid = Some (set_activeListenSession None u) ∧
  calls first = [User_findById uid; ListenSession_findById sid; User_save uid] ∧
  response second = Res 200 (ActiveJson None) ∧
  store_after second = store_after first ∧
  calls second = [User_findById uid].
Proof.
  intros Hu Hptr Hstale first second.
  assert (Hfirst : first = (Res 200 (ActiveJson None),
                            with_users (alter (set_activeListenSession None) uid) db,
                            [User_findById uid; ListenSession_findById sid;
                             User_save uid])).
  { subst first. unfold stalePointer in Hstale. run. rewrite Hu. run.
    rewrite Hptr. run.
    destruct (sessions db !! sid) as [s|]; run; [|done].
    rewrite Hstale. by run. }
  subst second. rewrite Hfirst. run. rewrite lookup_alter_eq, Hu.
  cbn [fmap option_fmap option_map activeListenSession set_activeListenSession].
  by run.
Qed.

Lemma getActive_read_repair_witness :
  let db := store_after (accept 950 12%N 21%N (Some 2%N) sample) in
  response (getActive (Some 1%N) db) = Res 200 (ActiveJson None) ∧
  calls (getActive (Some 1%N) (store_after (getActive (Some 1%N) db)))
  = [User_findById 1%N].
Proof.
  intros db.
  pose proof (getActive_read_repair db 1%N 10%N (mkUser [2%N] [] (Some 10%N))
                ltac:(vm_compute; reflexivity) ltac:(reflexivity)
                ltac:(vm_compute; reflexivity)) as H.
  cbv zeta in H. destruct H as (H1 & _ & _ & _ & _ & H6). split; assumption.
Defined.

(** ** SyncPlayback *)

Lemma alter_const_insert {A} (m : gmap N A) (i : N) (x y : A) :
  m !! i = Some x → alter (λ _, y) i m = <[i:=y]> m.
Proof.
  intros Hi. apply map_eq. intros j. destruct (decide (i = j)) as [<-|Hne].
  - by rewrite lookup_alter_eq, lookup_insert_eq, Hi.
  - by rewrite lookup_alter_ne, lookup_insert_ne.
Qed.

Section SyncProperties.

Variable castTrack : JsValue → option Track.
Variable castQueue : JsValue → option (list Track).

(** The handler's assignments compute the specification's [patched]. *)
Lemma applyPatch_carries (now : Z) (body : SyncBody) (p : Patch) (s : ListenSession) :
  carries castTrack castQueue body p →
  applyPatch castTrack castQueue now body s = Some (patched now p s).
Proof.
  destruct body as [ct pos play q], p as [ppos pplay pct pq].
  unfold carries, applyPatch, assignCurrentTrack, assignQueue. cbn.
  intros (-> & -> & Hct & Hq).
  destruct pct as [t|]; [destruct Hct as [-> ->]|subst ct];
    (destruct pq as [l|]; [destruct Hq as [-> ->]|subst q]);
    destruct ppos, pplay, s as [? ? ? ? [? ? ?] ? ?]; reflexivity.
Qed.

(** What the assignments can do to the track and the queue. *)
Lemma applyPatch_track_queue (now : Z) (body : SyncBody) (s s' : ListenSession) :
  applyPatch castTrack castQueue now body s = Some s' →
  (is_Some (currentTrack s) → is_Some (currentTrack s')) ∧
  (truthy (body_currentTrack body) = false → currentTrack s' = currentTrack s) ∧
  (truthy (body_queue body) = false → queue s' = queue s).
Proof.
  destruct body as [ct pos play q].
  unfold applyPatch, assignCurrentTrack, assignQueue. cbn.
  destruct (truthy ct) eqn:Hct; [destruct (castTrack ct) as [t|]; [|done]|];
    (destruct (truthy q) eqn:Hq; [destruct (castQueue q) as [l|]; [|done]|]);
    cbn; intros [= <-]; destruct pos, play; cbn; by eauto.
Qed.

(** C6. On an active session a caller other than the host is answered 403
    and nothing is written: the store is the one the call found, and the
    only store call is the lookup of the session. *)
Theorem sync_not_host_forbidden (now : Z) (db : Db) (sid uid : N)
    (s : ListenSession) (body : SyncBody) :
  sessions db !! sid = Some s →
  isActive s = true →
  host s ≠ uid →
  sync castTrack castQueue now sid (Some uid) body db
  = (Res 403 (Message "Only the host can update playback state"), db,
     [ListenSession_findById sid]).
Proof.
  intros Hs Hact Hhost. unfold sync. run. rewrite Hs, Hact. cbn [negb].
  apply N.eqb_neq in Hhost. rewrite Hhost. reflexivity.
Qed.

(** C7. The host's patch on an active session: the stored session is the
    old one with each present field replaced (track and queue wholesale),
    each absent field kept, and [playbackState.updatedAt] set to [now]
    whatever the patch holds; nothing else in the store changes. *)
Theorem sync_partial_patch (now : Z) (db : Db) (sid : N) (s : ListenSession)
    (body : SyncBody) (p : Patch) :
  sessions db !! sid = Some s →
  isActive s = true →
  carries castTrack castQueue body p →
  let r := sync castTrack castQueue now sid (Some (host s)) body db in
  response r = Res 200 (PlaybackJson "Playback state updated"
                          (playbackState (patched now p s))
                          (currentTrack (patched now p s))) ∧
  store_after r = with_sessions (insert sid (patched now p s)) db ∧
  updatedAt (playbackState (patched now p s)) = now.
Proof.
  intros Hs Hact Hp r. subst r. unfold sync. run. rewrite Hs, Hact. cbn [negb].
  rewrite N.eqb_refl. cbn [negb].
  rewrite (applyPatch_carries now body p s Hp). run.
  split; [done|]. split; [|done].
  unfold with_sessions. by rewrite (alter_const_insert _ _ s).
Qed.

(** C8, as the handler has it.  The host's patch position is stored
    whenever it is a number, whatever its sign: the handler checks the
    type of the value and nothing else. *)
Theorem sync_position_unvalidated (now : Z) (db : Db) (sid : N) (s : ListenSession)
    (body : SyncBody) (p : Patch) (x : Q) :
  sessions db !! sid = Some s →
  isActive s = true →
  carries castTrack castQueue body p →
  patch_position p = Some x →
  let r := sync castTrack castQueue now sid (Some (host s)) body db in
  ∃ s', sessions (store_after r) !! sid = Some s' ∧
        position (playbackState s') = x.
Proof.
  intros Hs Hact Hp Hx r. subst r. unfold sync. run. rewrite Hs, Hact. cbn [negb].
  rewrite N.eqb_refl. cbn [negb].
  rewrite (applyPatch_carries now body p s Hp). run.
  exists (patched now p s). rewrite lookup_alter_eq, Hs. cbn.
  by rewrite Hx.
Qed.

(** C9. No sync call clears a track: whoever calls, on whichever session
    and with whatever body, a session that had a current track still has
    one afterwards.  A falsy [currentTrack] in the body (undefined, null,
    false, 0, the empty string) leaves the track as it was, and a falsy
    [queue] leaves the queue as it was. *)
Theorem sync_never_clears (now : Z) (db : Db) (sid : N) (userId : option N)
    (body : SyncBody) (sid0 : N) (s0 : ListenSession) :
  sessions db !! sid0 = Some s0 →
  let r := sync castTrack castQueue now sid userId body db in
  ∃ s1, sessions (store_after r) !! sid0 = Some s1 ∧
        (is_Some (currentTrack s0) → is_Some (currentTrack s1)) ∧
        (truthy (body_currentTrack body) = false →
         currentTrack s1 = currentTrack s0) ∧
        (truthy (body_queue body) = false → queue s1 = queue s0).
Proof.
  intros Hs0 r. subst r. unfold sync.
  destruct userId as [uid|]; run; [|by eauto].
  destruct (sessions db !! sid) as [s|] eqn:Hs; run; [|by eauto].
  destruct (isActive s); cbn [negb]; run; [|by eauto].
  destruct (host s =? uid)%N; cbn [negb]; run; [|by eauto].
  destruct (applyPatch castTrack castQueue now body s) as [s'|] eqn:Hp;
    run; [|by eauto].
  destruct (decide (sid = sid0)) as [->|Hne].
  - rewrite lookup_alter_eq, Hs. cbn. exists s'. split; [done|].
    assert (s0 = s) as -> by congruence.
    by apply (applyPatch_track_queue now body).
  - rewrite lookup_alter_ne by done. by eauto.
Qed.

End SyncProperties.

Lemma sync_not_host_forbidden_witness :
  sync objectTrack arrayQueue 600 10%N (Some 2%N)
       (mkSyncBody JUndefined (JNum 30) (JBool false) JUndefined) sample
  = (Res 403 (Message "Only the host can update playback state"), sample,
     [ListenSession_findById 10%N]).
Proof.
  apply (sync_not_host_forbidden objectTrack arrayQueue 600 sample 10%N 2%N session10).
  - vm_compute; reflexivity.
  - reflexivity.
  - vm_compute; discriminate.
Defined.

Lemma sync_partial_patch_witness :
  let body := mkSyncBody json_track_b JUndefined (JBool false) JUndefined in
  let r := sync objectTrack arrayQueue 600 10%N (Some 1%N) body sample in
  store_after r
  = with_sessions
      (insert 10%N
         {| host := 1%N; participants := [1%N; 2%N]; currentTrack := Some track_b;
            queue := [track_a];
            playbackState := {| position := 12%Q; isPlaying := false;
                                updatedAt := 600 |};
            isActive := true; endedAt := None |}) sample.
Proof.
  intros body r.
  apply (sync_partial_patch objectTrack arrayQueue 600 sample 10%N session10 body
           (mkPatch None (Some false) (Some track_b) None)).
  - vm_compute; reflexivity.
  - reflexivity.
  - repeat split; reflexivity.
Defined.

(** C8, refuted as stated: the host of session 10, whose position is 12,
    sends position -5; the call succeeds and -5 is the stored position. *)
Lemma sync_negative_position_stored :
  let body := mkSyncBody JUndefined (JNum (-5)) JUndefined JUndefined in
  let r := sync objectTrack arrayQueue 600 10%N (Some 1%N) body sample in
  sessions sample !! 10%N = Some session10 ∧
  (0 <= position (playbackState session10))%Q ∧
  response r = Res 200 (PlaybackJson "Playback state updated"
                          (mkPlaybackState (-5) true 600) (Some track_a)) ∧
  ∃ s', sessions (store_after r) !! 10%N = Some s' ∧
        (position (playbackState s') < 0)%Q.
Proof.
  cbv zeta. split; [vm_compute; reflexivity|].
  split; [vm_compute; discriminate|].
  split; [vm_compute; reflexivity|].
  eexists. split; [vm_compute; reflexivity|]. vm_compute. reflexivity.
Qed.

Lemma sync_position_unvalidated_witness :
  let body := mkSyncBody JUndefined (JNum (-5)) JUndefined JUndefined in
  let r := sync objectTrack arrayQueue 600 10%N (Some 1%N) body sample in
  ∃ s', sessions (store_after r) !! 10%N = Some s' ∧
        position (playbackState s') = (-5)%Q.
Proof.
  intros body r.
  apply (sync_position_unvalidated objectTrack arrayQueue 600 sample 10%N session10
           body (mkPatch (Some (-5)%Q) None None None) (-5)%Q).
  - vm_compute; reflexivity.
  - reflexivity.
  - repeat split; reflexivity.
  - reflexivity.
Defined.

Lemma sync_never_clears_witness :
  let body := mkSyncBody JNull JUndefined JUndefined (JNum 0) in
  let r := sync objectTrack arrayQueue 600 10%N (Some 1%N) body sample in
  ∃ s1, sessions (store_after r) !! 10%N = Some s1 ∧
        (is_Some (currentTrack session10) → is_Some (currentTrack s1)) ∧
        (truthy JNull = false → currentTrack s1 = currentTrack session10) ∧
        (truthy (JNum 0) = false → queue s1 = queue session10).
Proof.
  intros body r.
  apply (sync_never_clears objectTrack arrayQueue 600 sample 10%N (Some 1%N) body
           10%N session10).
  vm_compute; reflexivity.
Defined.

(** An empty array is truthy: the host can empty the queue with it. *)
Example sync_empty_array_replaces_queue :
  let body := mkSyncBody JUndefined JUndefined JUndefined (JArr []) in
  let r := sync objectTrack arrayQueue 600 10%N (Some 1%N) body sample in
  queue <$> sessions (store_after r) !! 10%N = Some [].
Proof. vm_compute; reflexivity. Qed.

(** ** Leave *)

(** C4. Leave on an active session by a caller known to the user
    directory.  When the caller is the host, the session is stored
    inactive with [endedAt] set and every remaining participant's pointer
    is cleared.  When the caller is not the host and a participant remains,
    the session stays active and the caller's pointer is the only user
    field that changes. *)
Theorem leave_host_or_member (now : Z) (db : Db) (sid uid : N)
    (s : ListenSession) (u : User) :
  sessions db !! sid = Some s →
  isActive s = true →
  users db !! uid = Some u →
  let r := leave now sid (Some uid) db in
  let remaining := others uid (participants s) in
  response r = Res 200 (Message "Left session successfully") ∧
  users (store_after r) !! uid = Some (set_activeListenSession None u) ∧
  (host s = uid →
   (∃ s', sessions (store_after r) !! sid = Some s' ∧
          isActive s' = false ∧ endedAt s' = Some now ∧
          participants s' = remaining) ∧
   (∀ p v, p ∈ remaining → users (store_after r) !! p = Some v →
           activeListenSession v = None)) ∧
  (host s ≠ uid → remaining ≠ [] →
   (∃ s', sessions (store_after r) !! sid = Some s' ∧
          isActive s' = true ∧ endedAt s' = endedAt s ∧
          participants s' = remaining) ∧
   (∀ v, v ≠ uid → users (store_after r) !! v = users db !! v)).
Proof.
  intros Hs Hact Hu r remaining. subst r. unfold leave. run.
  rewrite Hs, Hu. fold remaining.
  destruct (N.eqb_spec (host s) uid) as [Hh|Hh]; cbn [orb].
  - run. split; [done|]. split; [|split; [intros _; split|done]].
    + rewrite lookup_alter_eq, lookup_unset_not_elem, Hu; [done|].
      intros Hin. apply others_spec in Hin. by destruct Hin.
    + rewrite lookup_alter_eq, Hs. cbn. by eauto.
    + intros p v Hp. rewrite lookup_alter_ne.
      * rewrite lookup_unset_elem by done.
        destruct (users db !! p); cbn; by intros [= <-].
      * intros ->. apply others_spec in Hp. by destruct Hp.
  - destruct remaining as [|q rest] eqn:Hrem; cbn [length Nat.eqb].
    + run. cbn [foldr]. split; [done|]. split; [|split; [done|]].
      * by rewrite lookup_alter_eq, Hu.
      * by intros _ ?.
    + run. split; [done|]. split; [|split; [done|intros _ _; split]].
      * by rewrite lookup_alter_eq, Hu.
      * rewrite lookup_alter_eq, Hs. cbn. by eauto.
      * intros v Hv. by rewrite lookup_alter_ne.
Qed.

Lemma leave_host_or_member_witness :
  let r := leave 700 10%N (Some 2%N) sample in
  response r = Res 200 (Message "Left session successfully") ∧
  users (store_after r) !! 2%N = Some (mkUser [1%N; 3%N] [21%N] None) ∧
  users (store_after r) !! 1%N = users sample !! 1%N.
Proof.
  intros r.
  destruct (leave_host_or_member 700 sample 10%N 2%N session10
              (mkUser [1%N; 3%N] [21%N] (Some 10%N))
              ltac:(vm_compute; reflexivity) ltac:(reflexivity)
              ltac:(vm_compute; reflexivity)) as (H1 & H2 & _ & H4).
  split; [exact H1|]. split; [exact H2|].
  apply H4; [vm_compute; discriminate|vm_compute; discriminate|discriminate].
Defined.

(** The host of session 10 leaves: the session ends and user 2, who
    remains, loses the pointer. *)
Example leave_host_ends_session :
  let r := leave 700 10%N (Some 1%N) sample in
  sessions (store_after r) !! 10%N
  = Some {| host := 1%N; participants := [2%N]; currentTrack := Some track_a;
            queue := [track_a];
            playbackState := {| position := 12%Q; isPlaying := true;
                                updatedAt := 500 |};
            isActive := false; endedAt := Some 700 |} ∧
  activeListenSession <$> users (store_after r) !! 2%N = Some None.
Proof. split; vm_compute; reflexivity. Qed.

(** C10. Leave asks no membership question.  Whatever session [X] is named
    and whoever calls, the caller's pointer is cleared, whichever session
    it named, and no session other than [X] is written.  When the caller
    was not a participant of [X], the participants of [X] are the same
    afterwards, and when moreover the caller is not the host and [X] has
    participants, the record of [X] is left as it was. *)
Theorem leave_clears_caller_pointer (now : Z) (db : Db) (X uid : N)
    (s : ListenSession) (u : User) :
  sessions db !! X = Some s →
  users db !! uid = Some u →
  let r := leave now X (Some uid) db in
  response r = Res 200 (Message "Left session successfully") ∧
  users (store_after r) !! uid = Some (set_activeListenSession None u) ∧
  (∀ Y, Y ≠ X → sessions (store_after r) !! Y = sessions db !! Y) ∧
  (uid ∉ participants s →
   ∃ s', sessions (store_after r) !! X = Some s' ∧
         participants s' = participants s) ∧
  (uid ∉ participants s → host s ≠ uid → participants s ≠ [] →
   sessions (store_after r) !! X = Some s).
Proof.
  intros Hs Hu r. subst r. unfold leave. run. rewrite Hs, Hu.
  assert (Hptr : ∀ us : gmap N User,
            us = users db ∨
            us = foldr (alter (set_activeListenSession None)) (users db)
                       (others uid (participants s)) →
            alter (set_activeListenSession None) uid us !! uid
            = Some (set_activeListenSession None u)).
  { intros us [->| ->]; rewrite lookup_alter_eq.
    - by rewrite Hu.
    - rewrite lookup_unset_not_elem, Hu; [done|].
      intros Hin. apply others_spec in Hin. by destruct Hin. }
  destruct ((host s =? uid)%N || (length (others uid (participants s)) =? 0)%nat)
    eqn:Hend; run.
  - split; [done|]. split; [apply Hptr; by right|].
    split; [intros Y HY; by rewrite lookup_alter_ne|].
    split.
    + intros Hn. rewrite lookup_alter_eq, Hs. cbn.
      eexists. split; [done|]. cbn. by apply others_not_elem.
    + intros Hn Hh Hne. rewrite (others_not_elem _ _ Hn) in Hend.
      apply N.eqb_neq in Hh. rewrite Hh in Hend. cbn [orb] in Hend.
      by destruct (participants s).
  - split; [done|]. split; [apply Hptr; by left|].
    split; [intros Y HY; by rewrite lookup_alter_ne|].
    split.
    + intros Hn. rewrite lookup_alter_eq, Hs. cbn.
      eexists. split; [done|]. cbn. by apply others_not_elem.
    + intros Hn _ _. rewrite lookup_alter_eq, Hs. cbn.
      rewrite (others_not_elem _ _ Hn). by destruct s.
Qed.

(** User 3, who listens in session 11, calls Leave on session 10: session
    10 is untouched, session 11 still lists user 3 and is active, and user
    3's pointer to session 11 is gone. *)
Lemma leave_clears_caller_pointer_witness :
  let r := leave 700 10%N (Some 3%N) sample in
  users sample !! 3%N = Some (mkUser [2%N] [] (Some 11%N)) ∧
  users (store_after r) !! 3%N = Some (mkUser [2%N] [] None) ∧
  sessions (store_after r) !! 11%N = Some session11 ∧
  sessions (store_after r) !! 10%N = Some session10.
Proof.
  intros r.
  destruct (leave_clears_caller_pointer 700 sample 10%N 3%N session10
              (mkUser [2%N] [] (Some 11%N))
              ltac:(vm_compute; reflexivity) ltac:(vm_compute; reflexivity))
    as (_ & H2 & H3 & _ & H5).
  split; [vm_compute; reflexivity|]. split; [exact H2|]. split.
  - rewrite H3 by discriminate. vm_compute; reflexivity.
  - apply H5; [|discriminate|discriminate].
    intros Hin. vm_compute in Hin. by repeat (apply elem_of_cons in Hin as [Hin|Hin];
      [discriminate|]); apply elem_of_nil in Hin.
Defined.

(** ** Accept and Decline *)

(** C3. Accept by the recipient of an invitation stored as pending whose
    [expiresAt] is strictly before [now] is answered 400 "Request has
    expired" and stores the invitation as expired; nothing else changes.
    Any later Accept of it is answered 400 "Request is no longer pending"
    and writes nothing. *)
Theorem accept_expired_then_invalid (now : Z) (newId : N) (db : Db) (rid uid : N)
    (r : ListenTogetherRequest) :
  requests db !! rid = Some r →
  to r = uid →
  status r = pending →
  (expiresAt r < now)%Z →
  let first := accept now newId rid (Some uid) db in
  response first = Res 400 (Message "Request has expired") ∧
  requests (store_after first) !! rid = Some (set_status expired r) ∧
  users (store_after first) = users db ∧
  sessions (store_after first) = sessions db ∧
  ∀ (now' : Z) (newId' : N),
    let second := accept now' newId' rid (Some uid) (store_after first) in
    response second = Res 400 (Message "Request is no longer pending") ∧
    store_after second = store_after first.
Proof.
  intros Hr Hto Hst Hexp first.
  assert (Hfirst : first = (Res 400 (Message "Request has expired"),
                            with_requests (alter (set_status expired) rid) db,
                            [Request_findById rid; Request_save rid])).
  { subst first. unfold accept. run. rewrite Hr, Hto, N.eqb_refl, Hst.
    cbn [negb bool_decide decide_rel]. rewrite bool_decide_eq_true_2 by done.
    cbn [negb]. apply Z.ltb_lt in Hexp. rewrite Hexp. reflexivity. }
  rewrite Hfirst. run.
  assert (Hr' : alter (set_status expired) rid (requests db) !! rid
                = Some (set_status expired r)) by (by rewrite lookup_alter_eq, Hr).
  split; [done|]. split; [exact Hr'|]. split; [done|]. split; [done|].
  intros now' newId'. unfold accept. run. rewrite Hr'.
  cbn [to set_status status]. rewrite Hto, N.eqb_refl. by split.
Qed.

Lemma accept_expired_then_invalid_witness :
  let first := accept 1001 12%N 21%N (Some 2%N) sample in
  response first = Res 400 (Message "Request has expired") ∧
  requests (store_after first) !! 21%N = Some (mkRequest 3%N 2%N expired None 1000) ∧
  response (accept 1002 13%N 21%N (Some 2%N) (store_after first))
  = Res 400 (Message "Request is no longer pending").
Proof.
  intros first.
  destruct (accept_expired_then_invalid 1001 12%N sample 21%N 2%N
              (mkRequest 3%N 2%N pending None 1000)
              ltac:(vm_compute; reflexivity) ltac:(reflexivity) ltac:(reflexivity)
              ltac:(reflexivity)) as (H1 & H2 & _ & _ & H5).
  split; [exact H1|]. split; [exact H2|]. exact (proj1 (H5 1002 13%N)).
Defined.

(** At the instant [expiresAt] itself the invitation is still accepted. *)
Example accept_at_expiresAt :
  response (accept 1000 12%N 21%N (Some 2%N) sample)
  = Res 200 (AcceptedJson "Request accepted" 12%N (newSession 1000 3%N 2%N)).
Proof. vm_compute; reflexivity. Qed.

(** The sessions after ending the one a user points at. *)
Lemma endPointed_run (now : Z) (u : User) (db : Db) :
  endPointed now u db
  = (tt, with_sessions (endedOf now u) db,
     match activeListenSession u with
     | Some sid => [ListenSession_findByIdAndUpdate sid]
     | None => []
     end).
Proof.
  unfold endPointed, endedOf. destruct (activeListenSession u); run; [done|].
  by destruct db.
Qed.

(** Accept on its success path. *)
Lemma accept_run (now : Z) (newId : N) (db : Db) (rid uid : N)
    (r : ListenTogetherRequest) (h p : User) :
  requests db !! rid = Some r →
  to r = uid →
  status r = pending →
  (now ≤ expiresAt r)%Z →
  users db !! from r = Some h →
  users db !! uid = Some p →
  let res := accept now newId rid (Some uid) db in
  response res
  = Res 200 (AcceptedJson "Request accepted" newId (newSession now (from r) uid)) ∧
  store_after res
  = {| users :=
         alter (λ d, set_listenTogetherRequests
                       (withoutRequest rid (listenTogetherRequests p))
                       (set_activeListenSession (Some newId) d)) uid
           (alter (set_activeListenSession (Some newId)) (from r) (users db));
       sessions :=
         <[newId := newSession now (from r) uid]>
           (endedOf now p (endedOf now h (sessions db)));
       requests :=
         alter (λ d, set_sessionId (Some newId) (set_status accepted d)) rid
           (requests db) |}.
Proof.
  intros Hr Hto Hst Hexp Hh Hp res. subst res. unfold accept. run.
  rewrite Hr, Hto, N.eqb_refl, Hst.
  rewrite bool_decide_eq_true_2 by done. cbn [negb].
  apply Z.ltb_ge in Hexp. rewrite Hexp. run. rewrite Hh, Hp.
  unfold bind. rewrite endPointed_run. run. rewrite endPointed_run. by run.
Qed.

(** C2. The recipient of a pending, unexpired invitation, pointing at an
    active session [s1], accepts; [newId] is the identifier drawn for the
    new session, one that names no stored session.  The call succeeds; [s1]
    is stored inactive with [endedAt] set; the recipient's pointer names
    the new session, which is not [s1]; and the new session is the only
    one added: hosted by the inviter, with the inviter and the invitee as
    participants, no track, an empty queue, paused at position 0. *)
Theorem accept_supersedes_active_session (now : Z) (newId : N) (db : Db)
    (rid uid s1id : N) (r : ListenTogetherRequest) (h p : User) (s1 : ListenSession) :
  requests db !! rid = Some r →
  to r = uid →
  status r = pending →
  (now ≤ expiresAt r)%Z →
  users db !! from r = Some h →
  users db !! uid = Some p →
  activeListenSession p = Some s1id →
  sessions db !! s1id = Some s1 →
  isActive s1 = true →
  sessions db !! newId = None →
  let res := accept now newId rid (Some uid) db in
  let created :=
    {| host := from r; participants := [from r; uid]; currentTrack := None;
       queue := [];
       playbackState := {| position := 0%Q; isPlaying := false; updatedAt := now |};
       isActive := true; endedAt := None |} in
  response res = Res 200 (AcceptedJson "Request accepted" newId created) ∧
  (∃ s1', sessions (store_after res) !! s1id = Some s1' ∧
          isActive s1' = false ∧ endedAt s1' = Some now) ∧
  (∃ p', users (store_after res) !! uid = Some p' ∧
         activeListenSession p' = Some newId) ∧
  newId ≠ s1id ∧
  sessions (store_after res) !! newId = Some created ∧
  dom (sessions (store_after res)) = {[ newId ]} ∪ dom (sessions db).
Proof.
  intros Hr Hto Hst Hexp Hh Hp Hptr Hs1 Hact Hfresh res created.
  assert (Hne : newId ≠ s1id) by (intros ->; congruence).
  destruct (accept_run now newId db rid uid r h p Hr Hto Hst Hexp Hh Hp)
    as [Hresp Hstore].
  subst res. rewrite Hresp, Hstore. clear Hresp Hstore.
  assert (Hpe : ∀ ss, endedOf now p ss = alter (set_ended now) s1id ss)
    by (intros ss; unfold endedOf; by rewrite Hptr).
  rewrite !Hpe. run.
  assert (Hh1 : ∃ s1', endedOf now h (sessions db) !! s1id = Some s1' ∧
                       set_ended now s1' = set_ended now s1).
  { unfold endedOf. destruct (activeListenSession h) as [hs|]; [|by eauto].
    destruct (decide (hs = s1id)) as [->|Hn].
    - rewrite lookup_alter_eq, Hs1. cbn. by eauto.
    - rewrite lookup_alter_ne by done. by eauto. }
  destruct Hh1 as (s1' & Hs1' & Hend).
  split; [done|]. split; [|split; [|split; [done|split]]].
  - rewrite lookup_insert_ne, lookup_alter_eq, Hs1' by done. cbn. by eauto.
  - rewrite lookup_alter_eq, lookup_alter. case_decide as Hd.
    + rewrite <- Hd in Hp. rewrite Hh. cbn. by eauto.
    + rewrite Hp. cbn. by eauto.
  - by rewrite lookup_insert_eq.
  - rewrite dom_insert_L, dom_alter_L. unfold endedOf.
    destruct (activeListenSession h); by rewrite ?dom_alter_L.
Qed.

Lemma accept_supersedes_active_session_witness :
  let res := accept 950 12%N 21%N (Some 2%N) sample in
  (isActive <$> sessions sample !! 10%N) = Some true ∧
  (∃ s1', sessions (store_after res) !! 10%N = Some s1' ∧
          isActive s1' = false ∧ endedAt s1' = Some 950) ∧
  (∃ p', users (store_after res) !! 2%N = Some p' ∧
         activeListenSession p' = Some 12%N) ∧
  sessions (store_after res) !! 12%N = Some (newSession 950 3%N 2%N).
Proof.
  intros res.
  destruct (accept_supersedes_active_session 950 12%N sample 21%N 2%N 10%N
              (mkRequest 3%N 2%N pending None 1000)
              (mkUser [2%N] [] (Some 11%N))
              (mkUser [1%N; 3%N] [21%N] (Some 10%N)) session10
              ltac:(vm_compute; reflexivity) ltac:(reflexivity) ltac:(reflexivity)
              ltac:(vm_compute; discriminate) ltac:(vm_compute; reflexivity)
              ltac:(vm_compute; reflexivity) ltac:(reflexivity)
              ltac:(vm_compute; reflexivity) ltac:(reflexivity)
              ltac:(vm_compute; reflexivity)) as (_ & H2 & H3 & _ & H5 & _).
  split; [vm_compute; reflexivity|]. split; [exact H2|]. split; [exact H3|].
  exact H5.
Defined.

(** Accept guards the status: an invitation that is not pending is left as
    it is stored. *)
Lemma accept_keeps_terminal (now : Z) (newId : N) (db : Db) (rid : N)
    (userId : option N) (r : ListenTogetherRequest) :
  requests db !! rid = Some r →
  status r ≠ pending →
  store_after (accept now newId rid userId db) = db.
Proof.
  intros Hr Hst. unfold accept. destruct userId as [uid|]; run; [|done].
  rewrite Hr. destruct (to r =? uid)%N; cbn [negb]; run; [|done].
  by rewrite bool_decide_eq_false_2.
Qed.

(** Decline has no such guard: the recipient's call stores [declined]
    whatever the status was. *)
Lemma decline_sets_declined (db : Db) (rid : N) (r : ListenTogetherRequest) :
  requests db !! rid = Some r →
  let res := decline rid (Some (to r)) db in
  response res = Res 200 (Message "Request declined") ∧
  requests (store_after res) !! rid = Some (set_status declined r).
Proof.
  intros Hr res. subst res. unfold decline. run. rewrite Hr, N.eqb_refl.
  cbn [negb]. run.
  destruct (users db !! to r); run; by rewrite lookup_alter_eq, Hr.
Qed.

(** C1, on the code.  Request 20 of the sample store was accepted into
    session 10.  Its recipient declines it: the call is answered 200 and
    the stored status goes from [accepted] to [declined], the session
    identifier staying in place. *)
Theorem decline_overwrites_accepted :
  let res := decline 20%N (Some 2%N) sample in
  requests sample !! 20%N = Some (mkRequest 1%N 2%N accepted (Some 10%N) 900) ∧
  response res = Res 200 (Message "Request declined") ∧
  requests (store_after res) !! 20%N
  = Some (mkRequest 1%N 2%N declined (Some 10%N) 900).
Proof. cbv zeta. repeat split; vm_compute; reflexivity. Qed.

(** * Further properties of the handlers *)

Ltac run_more :=
  cbn [readState getActive sync leave endSession accept decline endPointed
       bind ret findUser saveUser unsetActiveOf findSession saveSession
       insertSession endSessionById findRequest saveRequest
       response store_after calls fst snd app
       with_users with_sessions with_requests users sessions requests].

Lemma db_eta (db : Db) : mkDb (users db) (sessions db) (requests db) = db.
Proof. by destruct db. Qed.

Lemma isParticipant_elem (uid : N) (s : ListenSession) :
  isParticipant uid s = true ↔ uid ∈ participants s.
Proof.
  unfold isParticipant. rewrite existsb_exists, list_elem_of_In. split.
  - intros (p & Hp & Heq). apply N.eqb_eq in Heq. by subst.
  - intros Hin. exists uid. by rewrite N.eqb_refl.
Qed.

Lemma isParticipant_others (uid : N) (l : list N) (s : ListenSession) :
  participants s = others uid l → isParticipant uid s = false.
Proof.
  intros Hp. apply not_true_is_false. rewrite isParticipant_elem, Hp, others_spec.
  by intros [_ ?].
Qed.

(** ** SyncPlayback, ReadPlaybackState and EndSession *)

Section PlaybackProperties.

Variable castTrack : JsValue → option Track.
Variable castQueue : JsValue → option (list Track).

(** The assignments touch the playback state, the track and the queue. *)
Lemma applyPatch_frame (now : Z) (body : SyncBody) (s s' : ListenSession) :
  applyPatch castTrack castQueue now body s = Some s' →
  host s' = host s ∧ participants s' = participants s ∧
  isActive s' = isActive s ∧ endedAt s' = endedAt s.
Proof.
  destruct body as [ct pos play q].
  unfold applyPatch, assignCurrentTrack, assignQueue. cbn.
  destruct (truthy ct); [destruct (castTrack ct) as [t|]; [|done]|];
    (destruct (truthy q); [destruct (castQueue q) as [l|]; [|done]|]);
    cbn; intros [= <-]; by destruct pos, play.
Qed.

(** Every way a sync call can go. *)
Lemma sync_cases (now : Z) (sid : N) (caller : option N) (body : SyncBody) (db : Db) :
  let r := sync castTrack castQueue now sid caller body db in
  (store_after r = db ∧ ∃ code msg, response r = Res code (Message msg) ∧ code ≠ 200%N) ∨
  (∃ s s', sessions db !! sid = Some s ∧ isActive s = true ∧ caller = Some (host s) ∧
           applyPatch castTrack castQueue now body s = Some s' ∧
           response r = Res 200 (PlaybackJson "Playback state updated"
                                   (playbackState s') (currentTrack s')) ∧
           store_after r = with_sessions (insert sid s') db).
Proof.
  unfold sync. destruct caller as [uid|]; run_more; [|left; by eauto].
  destruct (sessions db !! sid) as [s|] eqn:Hs; run_more; [|left; by eauto].
  destruct (isActive s) eqn:Hact; cbn [negb]; run_more; [|left; by eauto].
  destruct (N.eqb_spec (host s) uid) as [Hh|Hh]; cbn [negb]; run_more;
    [|left; by eauto].
  destruct (applyPatch castTrack castQueue now body s) as [s'|] eqn:Hp;
    run_more; [|left; by eauto].
  right. exists s, s'. subst uid. repeat split; try done.
  unfold with_sessions. by rewrite (alter_const_insert _ _ s).
Qed.

(** X1. Single writer.  A sync call never writes a user or an invitation
    and never touches a session other than the one it names.  It changes
    the store only when the caller is the host of that session and the
    session is active, and even then the session keeps its host, its
    participants, its activity flag and its end stamp. *)
Theorem sync_single_writer (now : Z) (sid : N) (caller : option N)
    (body : SyncBody) (db : Db) :
  let db' := store_after (sync castTrack castQueue now sid caller body db) in
  users db' = users db ∧ requests db' = requests db ∧
  (∀ k, k ≠ sid → sessions db' !! k = sessions db !! k) ∧
  (db' ≠ db → ∃ s, sessions db !! sid = Some s ∧ isActive s = true ∧
                   caller = Some (host s)) ∧
  (∀ s, sessions db !! sid = Some s →
        ∃ s', sessions db' !! sid = Some s' ∧ host s' = host s ∧
              participants s' = participants s ∧ isActive s' = isActive s ∧
              endedAt s' = endedAt s).
Proof.
  intros db'. subst db'.
  destruct (sync_cases now sid caller body db)
    as [[-> _]|(s & s' & Hs & Hact & Hc & Hp & _ & ->)].
  - repeat split; try done. intros s Hs. by eauto 10.
  - run_more. repeat split.
    + intros k Hk. by rewrite lookup_insert_ne.
    + by eauto.
    + intros s0 Hs0. assert (s0 = s) as -> by congruence.
      rewrite lookup_insert_eq. destruct (applyPatch_frame _ _ _ _ Hp) as (?&?&?&?).
      by eauto 10.
Qed.

(** Every way a read of the playback state can go; none writes. *)
Lemma readState_cases (sid : N) (caller : option N) (db : Db) :
  let r := readState sid caller db in
  store_after r = db ∧
  match caller, sessions db !! sid with
  | None, _ => response r = Failure 401 "Unauthorized"
  | Some _, None => response r = Failure 404 "Session not found"
  | Some uid, Some s =>
      if isParticipant uid s
      then response r = Success (mkStateJson (currentTrack s) (playbackState s)
                                             (queue s) (host s))
      else response r = Failure 403 "You are not part of this session"
  end.
Proof.
  unfold readState. destruct caller as [uid|]; run_more; [|done].
  destruct (sessions db !! sid) as [s|]; run_more; [|done].
  by destruct (isParticipant uid s).
Qed.

(** X2. What the host syncs is what a participant reads.  After a
    successful patch by the host, every participant's read of the playback
    state answers with the patched track, playback state and queue, and
    with the same host. *)
Theorem readState_after_sync (now : Z) (db : Db) (sid reader : N)
    (s : ListenSession) (body : SyncBody) (p : Patch) :
  sessions db !! sid = Some s →
  isActive s = true →
  carries castTrack castQueue body p →
  reader ∈ participants s →
  let db' := store_after (sync castTrack castQueue now sid (Some (host s)) body db) in
  response (readState sid (Some reader) db')
  = Success {| state_currentTrack := currentTrack (patched now p s);
               state_playbackState := playbackState (patched now p s);
               state_queue := queue (patched now p s);
               state_host := host s |}.
Proof.
  intros Hs Hact Hp Hin db'. subst db'.
  destruct (sync_cases now sid (Some (host s)) body db)
    as [[_ (code & msg & Hr & Hcode)]|(s0 & s' & Hs0 & _ & _ & Hp' & _ & ->)].
  - exfalso. revert Hr. unfold sync. run_more. rewrite Hs, Hact, N.eqb_refl.
    cbn [negb]. rewrite (applyPatch_carries castTrack castQueue now body p s Hp).
    by run_more.
  - assert (s0 = s) as -> by congruence.
    rewrite (applyPatch_carries castTrack castQueue now body p s Hp) in Hp'.
    injection Hp' as <-.
    destruct (readState_cases sid (Some reader)
                (with_sessions (insert sid (patched now p s)) db)) as [_ Hr].
    revert Hr. run_more. rewrite lookup_insert_eq.
    assert (isParticipant reader (patched now p s) = true) as ->
      by (by apply isParticipant_elem).
    done.
Qed.

End PlaybackProperties.

(** ** EndSession and LeaveSession *)

(** [updateMany] with [$unset], on one user. *)
Lemma lookup_unset (ids : list N) (us : gmap N User) (k : N) :
  foldr (alter (set_activeListenSession None)) us ids !! k
  = if bool_decide (k ∈ ids) then set_activeListenSession None <$> us !! k
    else us !! k.
Proof.
  case_bool_decide.
  - by apply lookup_unset_elem.
  - by apply lookup_unset_not_elem.
Qed.

(** Every way an End call can go. *)
Lemma endSession_cases (now : Z) (sid : N) (caller : option N) (db : Db) :
  let r := endSession now sid caller db in
  match caller, sessions db !! sid with
  | None, _ => response r = Res 401 (Message "Unauthorized") ∧ store_after r = db
  | Some _, None =>
      response r = Res 404 (Message "Session not found") ∧ store_after r = db
  | Some uid, Some s =>
      if (host s =? uid)%N
      then response r = Res 200 (Message "Session ended successfully") ∧
           store_after r
           = {| users := foldr (alter (set_activeListenSession None)) (users db)
                               (participants s);
                sessions := alter (set_ended now) sid (sessions db);
                requests := requests db |}
      else response r = Res 403 (Message "Only the host can end the session") ∧
           store_after r = db
  end.
Proof.
  unfold endSession. destruct caller as [uid|]; run_more; [|done].
  destruct (sessions db !! sid) as [s|]; run_more; [|done].
  by destruct (host s =? uid)%N.
Qed.

(** Every way a Leave call can go. *)
Lemma leave_cases (now : Z) (sid : N) (caller : option N) (db : Db) :
  let r := leave now sid caller db in
  match caller with
  | None => response r = Res 401 (Message "Unauthorized") ∧ store_after r = db
  | Some uid =>
      match sessions db !! sid, users db !! uid with
      | None, _ =>
          response r = Res 404 (Message "Session not found") ∧ store_after r = db
      | Some _, None =>
          response r = Res 404 (Message "User not found") ∧ store_after r = db
      | Some s, Some _ =>
          let remaining := others uid (participants s) in
          let ending := (host s =? uid)%N || (length remaining =? 0)%nat in
          response r = Res 200 (Message "Left session successfully") ∧
          store_after r
          = {| users :=
                 alter (set_activeListenSession None) uid
                   (if ending
                    then foldr (alter (set_activeListenSession None)) (users db)
                               remaining
                    else users db);
               sessions :=
                 alter (λ d, let d := set_participants remaining d in
                             if ending then set_ended now d else d) sid
                       (sessions db);
               requests := requests db |}
      end
  end.
Proof.
  unfold leave. destruct caller as [uid|]; run_more; [|done].
  destruct (sessions db !! sid) as [s|]; run_more;
    (destruct (users db !! uid) as [u|]; run_more; [|done]); [|done].
  by destruct ((host s =? uid)%N || (length (others uid (participants s)) =? 0)%nat).
Qed.

(** X3. End by the host.  The call needs no active session: whenever the
    caller is the stored host it succeeds, stores the session inactive
    with [endedAt] at the instant of the call and its participants as they
    were, and clears the pointer of every listed participant, whichever
    session that pointer named.  Users outside the list, the other
    sessions and the invitations are untouched. *)
Theorem endSession_by_host (now : Z) (db : Db) (sid : N) (s : ListenSession) :
  sessions db !! sid = Some s →
  let r := endSession now sid (Some (host s)) db in
  response r = Res 200 (Message "Session ended successfully") ∧
  sessions (store_after r) !! sid = Some (set_ended now s) ∧
  (∀ k, k ≠ sid → sessions (store_after r) !! k = sessions db !! k) ∧
  (∀ p, p ∈ participants s →
        users (store_after r) !! p = set_activeListenSession None <$> users db !! p) ∧
  (∀ v, v ∉ participants s → users (store_after r) !! v = users db !! v) ∧
  requests (store_after r) = requests db.
Proof.
  intros Hs r. subst r.
  pose proof (endSession_cases now sid (Some (host s)) db) as H.
  cbv zeta in H. rewrite Hs, N.eqb_refl in H. destruct H as [-> ->].
  run_more. repeat split.
  - by rewrite lookup_alter_eq, Hs.
  - intros k Hk. by rewrite lookup_alter_ne.
  - intros p Hp. by apply lookup_unset_elem.
  - intros v Hv. by apply lookup_unset_not_elem.
Qed.

(** Session 10 was superseded when user 2 accepted request 21 into session
    12.  Its host ends it afterwards: user 2, now listening in the active
    session 12, loses the pointer to it. *)
Lemma endSession_by_host_witness :
  let db := store_after (accept 950 12%N 21%N (Some 2%N) sample) in
  let r := endSession 960 10%N (Some 1%N) db in
  (isActive <$> sessions db !! 10%N) = Some false ∧
  (isActive <$> sessions db !! 12%N) = Some true ∧
  (activeListenSession <$> users db !! 2%N) = Some (Some 12%N) ∧
  response r = Res 200 (Message "Session ended successfully") ∧
  (activeListenSession <$> users (store_after r) !! 2%N) = Some None ∧
  (endedAt <$> sessions (store_after r) !! 10%N) = Some (Some 960).
Proof.
  intros db r.
  destruct (endSession_by_host 960 db 10%N (set_ended 950 session10)
              ltac:(vm_compute; reflexivity)) as (H1 & H2 & _ & H4 & _).
  split; [vm_compute; reflexivity|]. split; [vm_compute; reflexivity|].
  split; [vm_compute; reflexivity|]. split; [exact H1|]. split.
  - subst r. cbn [host set_ended session10] in H4. rewrite (H4 2%N).
    + vm_compute; reflexivity.
    + cbn. set_solver.
  - subst r. cbn [host set_ended session10] in H2. by rewrite H2.
Defined.

(** X4. Only the host ends a session: an End call changes the store only
    when its caller is the stored host of the session it names. *)
Theorem endSession_only_host (now : Z) (sid : N) (caller : option N) (db : Db) :
  store_after (endSession now sid caller db) ≠ db →
  ∃ s, sessions db !! sid = Some s ∧ caller = Some (host s).
Proof.
  pose proof (endSession_cases now sid caller db) as H. cbv zeta in H.
  destruct caller as [uid|]; [|by destruct H as [_ ->]].
  destruct (sessions db !! sid) as [s|]; [|by destruct H as [_ ->]].
  destruct (N.eqb_spec (host s) uid) as [<-|Hne]; [|by destruct H as [_ ->]].
  by eauto.
Qed.

Lemma endSession_only_host_witness :
  ∃ s, sessions sample !! 11%N = Some s ∧ Some 3%N = Some (host s).
Proof.
  apply (endSession_only_host 700 11%N (Some 3%N) sample).
  intros Heq. apply (f_equal (λ d, isActive <$> sessions d !! 11%N)) in Heq.
  vm_compute in Heq. discriminate.
Defined.

Lemma endSession_host_store (now : Z) (db : Db) (sid : N) (s : ListenSession) :
  sessions db !! sid = Some s →
  store_after (endSession now sid (Some (host s)) db)
  = {| users := foldr (alter (set_activeListenSession None)) (users db)
                      (participants s);
       sessions := alter (set_ended now) sid (sessions db);
       requests := requests db |}.
Proof.
  intros Hs. pose proof (endSession_cases now sid (Some (host s)) db) as H.
  cbv zeta in H. rewrite Hs, N.eqb_refl in H. by destruct H.
Qed.

Section EndedSessions.

Variable castTrack : JsValue → option Track.
Variable castQueue : JsValue → option (list Track).

(** X5. An ended session is closed to writes and open to reads.  Once the
    host has ended a session, every sync call on it leaves the store as it
    is, an authenticated one being answered 400 "Session is no longer
    active" (the host included), while every listed participant still
    reads the track, playback state and queue the session ended with. *)
Theorem ended_session_read_only (now : Z) (db : Db) (sid : N) (s : ListenSession) :
  sessions db !! sid = Some s →
  let db' := store_after (endSession now sid (Some (host s)) db) in
  (∀ now' caller body,
     store_after (sync castTrack castQueue now' sid caller body db') = db') ∧
  (∀ now' uid body,
     response (sync castTrack castQueue now' sid (Some uid) body db')
     = Res 400 (Message "Session is no longer active")) ∧
  (∀ reader, reader ∈ participants s →
     response (readState sid (Some reader) db')
     = Success (mkStateJson (currentTrack s) (playbackState s) (queue s) (host s))).
Proof.
  intros Hs db'. subst db'. rewrite (endSession_host_store now db sid s Hs).
  set (db' := mkDb _ _ _).
  assert (Hs' : sessions db' !! sid = Some (set_ended now s))
    by (subst db'; run_more; by rewrite lookup_alter_eq, Hs).
  split; [|split].
  - intros now' caller body.
    destruct (sync_cases castTrack castQueue now' sid caller body db')
      as [[H _]|(s0 & s' & Hs0 & Hact & _)]; [done|].
    rewrite Hs' in Hs0. by injection Hs0 as <-.
  - intros now' uid body. unfold sync. run_more. by rewrite Hs'.
  - intros reader Hin. unfold readState. run_more. rewrite Hs'.
    assert (isParticipant reader (set_ended now s) = true) as ->
      by (by apply isParticipant_elem).
    done.
Qed.

End EndedSessions.

Lemma ended_session_read_only_witness :
  let db' := store_after (endSession 700 10%N (Some 1%N) sample) in
  response (sync objectTrack arrayQueue 710 10%N (Some 1%N)
              (mkSyncBody JUndefined (JNum 0) JUndefined JUndefined) db')
  = Res 400 (Message "Session is no longer active") ∧
  response (readState 10%N (Some 2%N) db')
  = Success (mkStateJson (Some track_a) (mkPlaybackState 12 true 500) [track_a] 1%N).
Proof.
  intros db'.
  destruct (ended_session_read_only objectTrack arrayQueue 700 sample 10%N session10
              ltac:(vm_compute; reflexivity)) as (_ & H2 & H3).
  split; [apply H2|]. apply (H3 2%N). cbn. set_solver.
Defined.

(** X6. Whoever has left a session can no longer read it.  After a Leave
    call that found the session and the caller, the caller's read of that
    session's playback state is answered 403, the host's included. *)
Theorem readState_after_leave (now : Z) (db : Db) (sid uid : N)
    (s : ListenSession) (u : User) :
  sessions db !! sid = Some s →
  users db !! uid = Some u →
  let db' := store_after (leave now sid (Some uid) db) in
  response (readState sid (Some uid) db')
  = Failure 403 "You are not part of this session".
Proof.
  intros Hs Hu db'. subst db'.
  pose proof (leave_cases now sid (Some uid) db) as H. cbv zeta in H.
  rewrite Hs, Hu in H. destruct H as [_ ->].
  unfold readState. run_more. rewrite lookup_alter_eq, Hs. cbn [fmap option_fmap option_map].
  match goal with |- context [isParticipant uid ?d] =>
    assert (isParticipant uid d = false) as ->
  end; [|done].
  apply (isParticipant_others uid (participants s)).
  by destruct ((host s =? uid)%N || _).
Qed.

Lemma readState_after_leave_witness :
  response (readState 10%N (Some 1%N) sample)
  = Success (mkStateJson (Some track_a) (mkPlaybackState 12 true 500) [track_a] 1%N) ∧
  response (readState 10%N (Some 1%N) (store_after (leave 700 10%N (Some 1%N) sample)))
  = Failure 403 "You are not part of this session".
Proof.
  split; [vm_compute; reflexivity|].
  apply (readState_after_leave 700 sample 10%N 1%N session10
           (mkUser [2%N] [] (Some 10%N))); vm_compute; reflexivity.
Defined.

(** ** AcceptInvitation and GetActiveSession *)

Lemma lookup_endedOf (now : Z) (u : User) (ss : gmap N ListenSession) (k : N) :
  endedOf now u ss !! k
  = if bool_decide (activeListenSession u = Some k)
    then set_ended now <$> ss !! k else ss !! k.
Proof.
  unfold endedOf. destruct (activeListenSession u) as [sid|].
  - case_bool_decide as Hk.
    + injection Hk as ->. apply lookup_alter_eq.
    + apply lookup_alter_ne. congruence.
  - by rewrite bool_decide_eq_false_2.
Qed.

(** Every way a GetActive call can go. *)
Lemma getActive_cases (caller : option N) (db : Db) :
  let r := getActive caller db in
  match caller with
  | None => response r = Res 401 (Message "Unauthorized") ∧ store_after r = db
  | Some uid =>
      match users db !! uid with
      | None => response r = Res 200 (ActiveJson None) ∧ store_after r = db
      | Some u =>
          match activeListenSession u with
          | None => response r = Res 200 (ActiveJson None) ∧ store_after r = db
          | Some sid =>
              if stalePointer db sid
              then response r = Res 200 (ActiveJson None) ∧
                   store_after r
                   = with_users (alter (set_activeListenSession None) uid) db
              else response r = Res 200 (ActiveJson (sessions db !! sid)) ∧
                   store_after r = db
          end
      end
  end.
Proof.
  unfold getActive, stalePointer. destruct caller as [uid|]; run_more; [|done].
  destruct (users db !! uid) as [u|]; run_more; [|done].
  destruct (activeListenSession u) as [sid|]; run_more; [|done].
  destruct (sessions db !! sid) as [s|]; run_more; [|done].
  by destruct (isActive s).
Qed.

(** X7. After a successful accept the inviter and the invitee are both in
    the created session: each one's GetActive answers with that session,
    and the recipient's call as the inviter's leaves the store as it is. *)
Theorem getActive_after_accept (now : Z) (newId : N) (db : Db) (rid uid : N)
    (r : ListenTogetherRequest) (h p : User) (who : N) :
  requests db !! rid = Some r →
  to r = uid →
  status r = pending →
  (now ≤ expiresAt r)%Z →
  users db !! from r = Some h →
  users db !! uid = Some p →
  who = from r ∨ who = uid →
  let db' := store_after (accept now newId rid (Some uid) db) in
  response (getActive (Some who) db')
  = Res 200 (ActiveJson (Some (newSession now (from r) uid))) ∧
  store_after (getActive (Some who) db') = db'.
Proof.
  intros Hr Hto Hst Hexp Hh Hp Hwho db'. subst db'.
  destruct (accept_run now newId db rid uid r h p Hr Hto Hst Hexp Hh Hp)
    as [_ ->].
  set (db' := mkDb _ _ _).
  assert (Hnew : sessions db' !! newId = Some (newSession now (from r) uid))
    by (subst db'; run_more; by rewrite lookup_insert_eq).
  assert (Hu : ∃ u', users db' !! who = Some u' ∧
                     activeListenSession u' = Some newId).
  { subst db'. run_more. rewrite lookup_alter. case_decide as Hd.
    - subst who. rewrite lookup_alter, Hp, Hh. case_decide; cbn; by eauto.
    - destruct Hwho as [-> | ->]; [|done].
      rewrite lookup_alter_eq, Hh. cbn. by eauto. }
  destruct Hu as (u' & Hu' & Hptr).
  pose proof (getActive_cases (Some who) db') as H. cbv beta iota zeta in H.
  rewrite Hu', Hptr in H. unfold stalePointer in H. rewrite Hnew in H.
  cbn [isActive newSession negb] in H. by destruct H as [-> ->].
Qed.

Lemma getActive_after_accept_witness :
  let db' := store_after (accept 950 12%N 21%N (Some 2%N) sample) in
  response (getActive (Some 3%N) db')
  = Res 200 (ActiveJson (Some (newSession 950 3%N 2%N))) ∧
  store_after (getActive (Some 3%N) db') = db'.
Proof.
  apply (getActive_after_accept 950 12%N sample 21%N 2%N
           (mkRequest 3%N 2%N pending None 1000)
           (mkUser [2%N] [] (Some 11%N)) (mkUser [1%N; 3%N] [21%N] (Some 10%N)) 3%N
           ltac:(vm_compute; reflexivity) ltac:(reflexivity) ltac:(reflexivity)
           ltac:(vm_compute; discriminate) ltac:(vm_compute; reflexivity)
           ltac:(vm_compute; reflexivity) ltac:(left; reflexivity)).
Defined.

(** X8. The bystander of a superseded session.  A third user who points
    at the session that the invitee (or the inviter) points at is not
    written by their accept: the pointer stays, now naming an ended
    session.  That user's next GetActive answers "no session" and clears
    the pointer. *)
Theorem getActive_bystander_after_accept (now : Z) (newId : N) (db : Db)
    (rid uid : N) (r : ListenTogetherRequest) (h p : User)
    (w s1id : N) (uw : User) :
  requests db !! rid = Some r →
  to r = uid →
  status r = pending →
  (now ≤ expiresAt r)%Z →
  users db !! from r = Some h →
  users db !! uid = Some p →
  activeListenSession h = Some s1id ∨ activeListenSession p = Some s1id →
  users db !! w = Some uw →
  activeListenSession uw = Some s1id →
  w ≠ uid → w ≠ from r → s1id ≠ newId →
  let db' := store_after (accept now newId rid (Some uid) db) in
  users db' !! w = Some uw ∧
  response (getActive (Some w) db') = Res 200 (ActiveJson None) ∧
  users (store_after (getActive (Some w) db')) !! w
  = Some (set_activeListenSession None uw).
Proof.
  intros Hr Hto Hst Hexp Hh Hp Hs1 Hw Hptr Hwu Hwf Hne db'. subst db'.
  destruct (accept_run now newId db rid uid r h p Hr Hto Hst Hexp Hh Hp)
    as [_ ->].
  set (db' := mkDb _ _ _).
  assert (Hw' : users db' !! w = Some uw)
    by (subst db'; run_more; by rewrite !lookup_alter_ne).
  assert (Hstale : stalePointer db' s1id = true).
  { subst db'. unfold stalePointer. run_more.
    rewrite lookup_insert_ne, !lookup_endedOf by done.
    destruct Hs1 as [Hs1|Hs1]; rewrite (bool_decide_eq_true_2 _ Hs1).
    - case_bool_decide; by destruct (sessions db !! s1id).
    - by destruct (if bool_decide _ then _ else _). }
  split; [done|].
  pose proof (getActive_cases (Some w) db') as H. cbv beta iota zeta in H.
  rewrite Hw', Hptr, Hstale in H. destruct H as [-> ->].
  split; [done|]. run_more. by rewrite lookup_alter_eq, Hw'.
Qed.

Lemma getActive_bystander_after_accept_witness :
  let db' := store_after (accept 950 12%N 21%N (Some 2%N) sample) in
  users db' !! 1%N = Some (mkUser [2%N] [] (Some 10%N)) ∧
  response (getActive (Some 1%N) db') = Res 200 (ActiveJson None) ∧
  users (store_after (getActive (Some 1%N) db')) !! 1%N
  = Some (mkUser [2%N] [] None).
Proof.
  apply (getActive_bystander_after_accept 950 12%N sample 21%N 2%N
           (mkRequest 3%N 2%N pending None 1000)
           (mkUser [2%N] [] (Some 11%N)) (mkUser [1%N; 3%N] [21%N] (Some 10%N))
           1%N 10%N (mkUser [2%N] [] (Some 10%N))
           ltac:(vm_compute; reflexivity) ltac:(reflexivity) ltac:(reflexivity)
           ltac:(vm_compute; discriminate) ltac:(vm_compute; reflexivity)
           ltac:(vm_compute; reflexivity) ltac:(right; reflexivity)
           ltac:(vm_compute; reflexivity) ltac:(reflexivity)
           ltac:(discriminate) ltac:(discriminate) ltac:(discriminate)).
Defined.



(** X10. Which sessions an accept writes.  A successful accept ends the
    sessions that the inviter and the invitee point at, stamping
    [endedAt] anew even on one that had ended before, creates the new
    session, and leaves every other stored session as it is. *)
Theorem accept_sessions_written (now : Z) (newId : N) (db : Db) (rid uid : N)
    (r : ListenTogetherRequest) (h p : User) (k : N) :
  requests db !! rid = Some r →
  to r = uid →
  status r = pending →
  (now ≤ expiresAt r)%Z →
  users db !! from r = Some h →
  users db !! uid = Some p →
  k ≠ newId →
  let db' := store_after (accept now newId rid (Some uid) db) in
  sessions db' !! k
  = if bool_decide (activeListenSession h = Some k ∨ activeListenSession p = Some k)
    then set_ended now <$> sessions db !! k
    else sessions db !! k.
Proof.
  intros Hr Hto Hst Hexp Hh Hp Hk db'. subst db'.
  destruct (accept_run now newId db rid uid r h p Hr Hto Hst Hexp Hh Hp)
    as [_ ->].
  run_more. rewrite lookup_insert_ne, !lookup_endedOf by done.
  repeat case_bool_decide; try done; try tauto.
  destruct (sessions db !! k) as [s|]; [|done]. cbn. by rewrite set_ended_idemp.
Qed.

Lemma accept_sessions_written_witness :
  let db' := store_after (accept 950 12%N 21%N (Some 2%N) sample) in
  sessions db' !! 11%N = Some (set_ended 950 session11) ∧
  sessions db' !! 10%N = Some (set_ended 950 session10).
Proof.
  intros db'. split.
  - apply (accept_sessions_written 950 12%N sample 21%N 2%N
             (mkRequest 3%N 2%N pending None 1000)
             (mkUser [2%N] [] (Some 11%N)) (mkUser [1%N; 3%N] [21%N] (Some 10%N))
             11%N); try (vm_compute; reflexivity); [vm_compute|]; discriminate.
  - apply (accept_sessions_written 950 12%N sample 21%N 2%N
             (mkRequest 3%N 2%N pending None 1000)
             (mkUser [2%N] [] (Some 11%N)) (mkUser [1%N; 3%N] [21%N] (Some 10%N))
             10%N); try (vm_compute; reflexivity); [vm_compute|]; discriminate.
Defined.

(** ** InviteFriend and ListIncomingInvitations *)

Lemma existingRequest_true (fromId toId : N) (db : Db) :
  existingRequest fromId toId db = true ↔
  ∃ k r, requests db !! k = Some r ∧
         from r = fromId ∧ to r = toId ∧ status r = pending.
Proof.
  unfold existingRequest, pendingBetween. rewrite existsb_exists. split.
  - intros ([k r] & Hin & Hp). apply list_elem_of_In, elem_of_map_to_list in Hin.
    cbn in Hp. apply andb_prop in Hp as [Hp Hst]. apply andb_prop in Hp as [Hf Ht].
    apply N.eqb_eq in Hf, Ht. apply bool_decide_eq_true in Hst. by eauto 10.
  - intros (k & r & Hk & Hf & Ht & Hst). exists (k, r). split.
    + by apply list_elem_of_In, elem_of_map_to_list.
    + cbn. rewrite Hf, Ht, !N.eqb_refl. cbn. by apply bool_decide_eq_true.
Qed.

Lemma areFriends_elem (u : User) (userId : N) :
  areFriends u userId = true ↔ userId ∈ friends u.
Proof.
  unfold areFriends. rewrite existsb_exists, list_elem_of_In. split.
  - intros (p & Hp & Heq). apply N.eqb_eq in Heq. by subst.
  - intros Hin. exists userId. by rewrite N.eqb_refl.
Qed.

(** Invite on its success path. *)
Lemma invite_run (now : Z) (newId userId fid : N) (db : Db) (f t : User) :
  userId ≠ fid →
  users db !! fid = Some f →
  users db !! userId = Some t →
  userId ∈ friends f →
  existingRequest fid userId db = false →
  invite now newId userId (Some fid) db
  = (Success newId, invited now newId userId fid t db).
Proof.
  intros Hne Hf Ht Hfr Hex. unfold invite.
  apply N.eqb_neq in Hne. rewrite Hne, Hf, Ht.
  apply areFriends_elem in Hfr. rewrite Hfr. cbn [negb]. by rewrite Hex.
Qed.


(** X12. What a sent invitation stores.  The new invitation is pending,
    bound to no session and expires ten minutes (600000 ms) after the
    call; its identifier is appended to the end of the invitee's inbound
    list.  The invitee's friends and pointer, the other users, the other
    invitations and every session are left as they are. *)
Theorem invite_effect (now : Z) (newId userId fid : N) (db : Db) (f t : User) :
  userId ≠ fid →
  users db !! fid = Some f →
  users db !! userId = Some t →
  userId ∈ friends f →
  existingRequest fid userId db = false →
  let db' := (invite now newId userId (Some fid) db).2 in
  requests db' !! newId
  = Some (mkRequest fid userId pending None (now + 600000)) ∧
  (∀ k, k ≠ newId → requests db' !! k = requests db !! k) ∧
  users db' !! userId
  = Some (mkUser (friends t) (listenTogetherRequests t ++ [newId])
                 (activeListenSession t)) ∧
  (∀ v, v ≠ userId → users db' !! v = users db !! v) ∧
  sessions db' = sessions db.
Proof.
  intros Hne Hf Ht Hfr Hex db'. subst db'.
  rewrite (invite_run now newId userId fid db f t) by done.
  unfold invited. run_more. repeat split.
  - by rewrite lookup_insert_eq.
  - intros k Hk. by rewrite lookup_insert_ne.
  - by rewrite lookup_alter_eq, Ht.
  - intros v Hv. by rewrite lookup_alter_ne.
Qed.

Lemma invite_effect_witness :
  let db' := (invite 100 22%N 3%N (Some 2%N) sample).2 in
  requests db' !! 22%N = Some (mkRequest 2%N 3%N pending None 600100) ∧
  users db' !! 3%N = Some (mkUser [2%N] [22%N] (Some 11%N)).
Proof.
  intros db'.
  destruct (invite_effect 100 22%N 3%N 2%N sample
              (mkUser [1%N; 3%N] [21%N] (Some 10%N)) (mkUser [2%N] [] (Some 11%N))
              ltac:(discriminate) ltac:(vm_compute; reflexivity)
              ltac:(vm_compute; reflexivity) ltac:(cbn; set_solver)
              ltac:(vm_compute; reflexivity)) as (H1 & _ & H3 & _).
  by split.
Defined.

(** X13. The ten-minute window.  An invitation that was just sent is
    accepted by its invitee at every instant up to and including ten
    minutes after the sending, into a session hosted by the inviter, and
    is refused as expired at every later instant. *)
Theorem accept_after_invite (now : Z) (newId userId fid : N) (db : Db) (f t : User) :
  userId ≠ fid →
  users db !! fid = Some f →
  users db !! userId = Some t →
  userId ∈ friends f →
  existingRequest fid userId db = false →
  let db' := (invite now newId userId (Some fid) db).2 in
  (∀ now' newSession_id, (now' ≤ now + 600000)%Z →
     response (accept now' newSession_id newId (Some userId) db')
     = Res 200 (AcceptedJson "Request accepted" newSession_id
                             (newSession now' fid userId))) ∧
  (∀ now' newSession_id, (now + 600000 < now')%Z →
     response (accept now' newSession_id newId (Some userId) db')
     = Res 400 (Message "Request has expired")).
Proof.
  intros Hne Hf Ht Hfr Hex db'. subst db'.
  rewrite (invite_run now newId userId fid db f t) by done. cbn [snd].
  set (db' := invited now newId userId fid t db).
  assert (Hr : requests db' !! newId = Some (newRequest now fid userId))
    by (subst db'; unfold invited; run_more; by rewrite lookup_insert_eq).
  assert (Hf' : users db' !! fid = Some f)
    by (subst db'; unfold invited; run_more; by rewrite lookup_alter_ne).
  assert (Ht' : ∃ t', users db' !! userId = Some t')
    by (subst db'; unfold invited; run_more; rewrite lookup_alter_eq, Ht; by eauto).
  destruct Ht' as [t' Ht']. split.
  - intros now' sid Hle.
    by destruct (accept_run now' sid db' newId userId (newRequest now fid userId) f t'
                   Hr eq_refl eq_refl Hle Hf' Ht') as [-> _].
  - intros now' sid Hlt. unfold accept. run_more. rewrite Hr.
    cbn [to newRequest status expiresAt defaultExpiresAt]. rewrite N.eqb_refl.
    cbn [negb bool_decide decide_rel]. rewrite bool_decide_eq_true_2 by done.
    cbn [negb].
    assert ((defaultExpiresAt now <? now')%Z = true) as ->
      by (apply Z.ltb_lt; unfold defaultExpiresAt; lia).
    reflexivity.
Qed.

Lemma accept_after_invite_witness :
  let db' := (invite 100 22%N 3%N (Some 2%N) sample).2 in
  response (accept 600100 13%N 22%N (Some 3%N) db')
  = Res 200 (AcceptedJson "Request accepted" 13%N (newSession 600100 2%N 3%N)) ∧
  response (accept 600101 13%N 22%N (Some 3%N) db')
  = Res 400 (Message "Request has expired").
Proof.
  intros db'.
  destruct (accept_after_invite 100 22%N 3%N 2%N sample
              (mkUser [1%N; 3%N] [21%N] (Some 10%N)) (mkUser [2%N] [] (Some 11%N))
              ltac:(discriminate) ltac:(vm_compute; reflexivity)
              ltac:(vm_compute; reflexivity) ltac:(cbn; set_solver)
              ltac:(vm_compute; reflexivity)) as (H1 & H2).
  split; [apply H1|apply H2]; lia.
Defined.

Lemma listed_true (now : Z) (uid : N) (r : ListenTogetherRequest) :
  listed now uid r = true ↔ to r = uid ∧ status r = pending ∧ (now < expiresAt r)%Z.
Proof.
  unfold listed. rewrite !andb_true_iff, N.eqb_eq, bool_decide_eq_true, Z.ltb_lt.
  tauto.
Qed.

(** X14. What is listed can be accepted.  An invitation that the listing
    shows to a user at some instant is stored, addressed to that user,
    pending and not yet at its deadline; if the inviter and the user exist,
    the user's accept at that instant succeeds. *)
Theorem listed_then_accepted (now : Z) (newId : N) (db : Db) (rid uid : N)
    (m : gmap N ListenTogetherRequest) (r : ListenTogetherRequest) (h p : User) :
  listRequests now (Some uid) db = Success m →
  m !! rid = Some r →
  users db !! from r = Some h →
  users db !! uid = Some p →
  requests db !! rid = Some r ∧
  to r = uid ∧ status r = pending ∧ (now < expiresAt r)%Z ∧
  response (accept now newId rid (Some uid) db)
  = Res 200 (AcceptedJson "Request accepted" newId (newSession now (from r) uid)).
Proof.
  intros Hl Hm Hh Hp. unfold listRequests in Hl. injection Hl as <-.
  apply map_lookup_filter_Some in Hm as [Hr Hlisted]. cbn in Hlisted.
  apply listed_true in Hlisted as (Hto & Hst & Hexp).
  repeat split; try done.
  by destruct (accept_run now newId db rid uid r h p Hr Hto Hst
                 ltac:(lia) Hh Hp) as [-> _].
Qed.

Lemma listed_then_accepted_witness :
  response (accept 999 12%N 21%N (Some 2%N) sample)
  = Res 200 (AcceptedJson "Request accepted" 12%N (newSession 999 3%N 2%N)).
Proof.
  apply (listed_then_accepted 999 12%N sample 21%N 2%N
           (filter (λ kr, listed 999 2%N kr.2 = true) (requests sample))
           (mkRequest 3%N 2%N pending None 1000)
           (mkUser [2%N] [] (Some 11%N)) (mkUser [1%N; 3%N] [21%N] (Some 10%N))
           ltac:(reflexivity) ltac:(vm_compute; reflexivity)
           ltac:(vm_compute; reflexivity) ltac:(vm_compute; reflexivity)).
Defined.

(** X15. The deadline instant.  At the instant [expiresAt] itself a
    pending invitation is no longer listed to its recipient, yet the
    recipient's accept at that same instant still succeeds: the listing
    asks for [expiresAt > now], the accept refuses only [expiresAt < now]. *)
Theorem deadline_instant_unlisted_but_accepted (newId : N) (db : Db) (rid uid : N)
    (r : ListenTogetherRequest) (h p : User) :
  requests db !! rid = Some r →
  to r = uid →
  status r = pending →
  users db !! from r = Some h →
  users db !! uid = Some p →
  let now := expiresAt r in
  (∃ m, listRequests now (Some uid) db = Success m ∧ m !! rid = None) ∧
  response (accept now newId rid (Some uid) db)
  = Res 200 (AcceptedJson "Request accepted" newId (newSession now (from r) uid)).
Proof.
  intros Hr Hto Hst Hh Hp now. split.
  - eexists. split; [reflexivity|]. apply map_lookup_filter_None. right.
    intros r' Hr'. assert (r' = r) as -> by congruence. cbn.
    rewrite listed_true. subst now. lia.
  - by destruct (accept_run now newId db rid uid r h p Hr Hto Hst
                   ltac:(subst now; lia) Hh Hp) as [-> _].
Qed.

Lemma deadline_instant_unlisted_but_accepted_witness :
  (∃ m, listRequests 1000 (Some 2%N) sample = Success m ∧ m !! 21%N = None) ∧
  response (accept 1000 12%N 21%N (Some 2%N) sample)
  = Res 200 (AcceptedJson "Request accepted" 12%N (newSession 1000 3%N 2%N)).
Proof.
  apply (deadline_instant_unlisted_but_accepted 12%N sample 21%N 2%N
           (mkRequest 3%N 2%N pending None 1000)
           (mkUser [2%N] [] (Some 11%N)) (mkUser [1%N; 3%N] [21%N] (Some 10%N))
           ltac:(vm_compute; reflexivity) ltac:(reflexivity) ltac:(reflexivity)
           ltac:(vm_compute; reflexivity) ltac:(vm_compute; reflexivity)).
Defined.

Lemma accept_expired_store (now : Z) (newId : N) (db : Db) (rid uid : N)
    (r : ListenTogetherRequest) :
  requests db !! rid = Some r →
  to r = uid →
  status r = pending →
  (expiresAt r < now)%Z →
  store_after (accept now newId rid (Some uid) db)
  = with_requests (alter (set_status expired) rid) db ∧
  response (accept now newId rid (Some uid) db)
  = Res 400 (Message "Request has expired").
Proof.
  intros Hr Hto Hst Hexp. unfold accept. run_more. rewrite Hr, Hto, N.eqb_refl, Hst.
  rewrite bool_decide_eq_true_2 by done. cbn [negb].
  apply Z.ltb_lt in Hexp. by rewrite Hexp.
Qed.

Lemma decline_store (db : Db) (rid : N) (r : ListenTogetherRequest) :
  requests db !! rid = Some r →
  store_after (decline rid (Some (to r)) db)
  = {| users :=
         match users db !! to r with
         | Some u =>
             alter (set_listenTogetherRequests
                      (withoutRequest rid (listenTogetherRequests u)))
                   (to r) (users db)
         | None => users db
         end;
       sessions := sessions db;
       requests := alter (set_status declined) rid (requests db) |}.
Proof.
  intros Hr. unfold decline. run_more. rewrite Hr, N.eqb_refl. cbn [negb].
  run_more. by destruct (users db !! to r).
Qed.

(** X16. An unswept invitation blocks the next one.  While an invitation
    from a user to a friend is stored as pending, a new invitation between
    the two is refused with 400 "Request already sent", even when the
    stored one is past its deadline.  Once the recipient's accept has
    found it expired, or the recipient has declined it, and no other
    invitation between the two is pending, the new invitation goes
    through. *)
Theorem invite_blocked_until_settled (now : Z) (newId sid : N) (db : Db)
    (rid userId fid : N) (r : ListenTogetherRequest) (f t : User) :
  requests db !! rid = Some r →
  from r = fid → to r = userId → status r = pending →
  (expiresAt r < now)%Z →
  unique_pending db →
  userId ≠ fid →
  users db !! fid = Some f →
  users db !! userId = Some t →
  userId ∈ friends f →
  (invite now newId userId (Some fid) db).1 = Failure 400 "Request already sent" ∧
  (invite now newId userId (Some fid)
          (store_after (accept now sid rid (Some userId) db))).1 = Success newId ∧
  (invite now newId userId (Some fid)
          (store_after (decline rid (Some userId) db))).1 = Success newId.
Proof.
  intros Hr Hf Ht Hst Hexp Huniq Hne Hfu Htu Hfr.
  assert (Hnone : ∀ st, st ≠ pending →
            ¬ ∃ k q, alter (set_status st) rid (requests db) !! k = Some q ∧
                     from q = fid ∧ to q = userId ∧ status q = pending).
  { intros st Hstne (k & q & Hk & Hqf & Hqt & Hqs).
    destruct (decide (k = rid)) as [->|Hkr].
    - rewrite lookup_alter_eq, Hr in Hk. injection Hk as <-. by cbn in Hqs.
    - rewrite lookup_alter_ne in Hk by done.
      apply Hkr. apply (Huniq k rid q r); congruence. }
  split; [|split].
  - unfold invite. apply N.eqb_neq in Hne. rewrite Hne, Hfu, Htu.
    apply areFriends_elem in Hfr. rewrite Hfr. cbn [negb].
    assert (existingRequest fid userId db = true) as ->
      by (apply existingRequest_true; by eauto 10).
    done.
  - destruct (accept_expired_store now sid db rid userId r Hr Ht Hst Hexp) as [-> _].
    rewrite (invite_run now newId userId fid _ f t); try done.
    apply not_true_is_false. rewrite existingRequest_true. by apply Hnone.
  - pose proof (decline_store db rid r Hr) as Hd. rewrite Ht, Htu in Hd.
    rewrite Hd. clear Hd.
    rewrite (invite_run now newId userId fid _ f
               (set_listenTogetherRequests
                  (withoutRequest rid (listenTogetherRequests t)) t)); try done.
    + run_more. by rewrite lookup_alter_ne, Hfu.
    + run_more. by rewrite lookup_alter_eq, Htu.
    + apply not_true_is_false. rewrite existingRequest_true. by apply Hnone.
Qed.

Lemma sample_pending_is_21 (i : N) (r : ListenTogetherRequest) :
  requests sample !! i = Some r → status r = pending → i = 21%N.
Proof.
  cbn [requests sample]. intros Hi Hst.
  destruct (decide (i = 20%N)) as [->|H20].
  { vm_compute in Hi. injection Hi as <-. discriminate. }
  destruct (decide (i = 21%N)) as [->|H21]; [done|].
  by rewrite lookup_insert_ne, lookup_singleton_ne in Hi.
Qed.

Lemma sample_unique_pending : unique_pending sample.
Proof.
  intros i j ri rj Hi Hj Hsi Hsj _ _.
  rewrite (sample_pending_is_21 i ri), (sample_pending_is_21 j rj); done.
Qed.

Lemma invite_blocked_until_settled_witness :
  (invite 1001 22%N 2%N (Some 3%N) sample).1 = Failure 400 "Request already sent" ∧
  (invite 1001 22%N 2%N (Some 3%N)
          (store_after (accept 1001 12%N 21%N (Some 2%N) sample))).1 = Success 22%N ∧
  (invite 1001 22%N 2%N (Some 3%N)
          (store_after (decline 21%N (Some 2%N) sample))).1 = Success 22%N.
Proof.
  apply (invite_blocked_until_settled 1001 22%N 12%N sample 21%N 2%N 3%N
           (mkRequest 3%N 2%N pending None 1000)
           (mkUser [2%N] [] (Some 11%N)) (mkUser [1%N; 3%N] [21%N] (Some 10%N))
           ltac:(vm_compute; reflexivity) ltac:(reflexivity) ltac:(reflexivity)
           ltac:(reflexivity) ltac:(reflexivity) sample_unique_pending
           ltac:(discriminate) ltac:(vm_compute; reflexivity)
           ltac:(vm_compute; reflexivity) ltac:(cbn; set_solver)).
Defined.

(** ** DeclineInvitation and who may write an invitation *)

(** Every way an Accept call can go, by the store it leaves. *)
Lemma accept_cases (now : Z) (newId rid : N) (caller : option N) (db : Db) :
  let res := accept now newId rid caller db in
  store_after res = db ∨
  (∃ r, requests db !! rid = Some r ∧ status r = pending ∧ caller = Some (to r) ∧
        (expiresAt r < now)%Z ∧
        store_after res = with_requests (alter (set_status expired) rid) db) ∨
  (∃ r h p, requests db !! rid = Some r ∧ status r = pending ∧
            caller = Some (to r) ∧ (now ≤ expiresAt r)%Z ∧
            users db !! from r = Some h ∧ users db !! to r = Some p ∧
            store_after res
            = {| users :=
                   alter (λ d, set_listenTogetherRequests
                                 (withoutRequest rid (listenTogetherRequests p))
                                 (set_activeListenSession (Some newId) d)) (to r)
                     (alter (set_activeListenSession (Some newId)) (from r)
                            (users db));
                 sessions :=
                   <[newId := newSession now (from r) (to r)]>
                     (endedOf now p (endedOf now h (sessions db)));
                 requests :=
                   alter (λ d, set_sessionId (Some newId) (set_status accepted d))
                         rid (requests db) |}).
Proof.
  intros res. subst res.
  destruct caller as [uid|]; [|by left].
  destruct (requests db !! rid) as [r|] eqn:Hr;
    [|left; unfold accept; run_more; by rewrite Hr].
  destruct (N.eqb_spec (to r) uid) as [Hto|Hto];
    [|left; unfold accept; run_more; rewrite Hr;
      apply N.eqb_neq in Hto; by rewrite Hto].
  destruct (decide (status r = pending)) as [Hst|Hst];
    [|left; by apply (accept_keeps_terminal now newId db rid (Some uid) r)].
  destruct (Z.ltb_spec (expiresAt r) now) as [Hexp|Hexp].
  { right; left. exists r. subst uid.
    by destruct (accept_expired_store now newId db rid (to r) r Hr eq_refl Hst Hexp)
      as [-> _]. }
  destruct (users db !! from r) as [h|] eqn:Hh; cycle 1.
  { left. unfold accept. run_more. rewrite Hr, Hto, N.eqb_refl, Hst.
    rewrite bool_decide_eq_true_2 by done. cbn [negb].
    apply Z.ltb_ge in Hexp. rewrite Hexp. run_more. rewrite Hh.
    by destruct (users db !! uid). }
  destruct (users db !! uid) as [p|] eqn:Hp; cycle 1.
  { left. unfold accept. run_more. rewrite Hr, Hto, N.eqb_refl, Hst.
    rewrite bool_decide_eq_true_2 by done. cbn [negb].
    apply Z.ltb_ge in Hexp. rewrite Hexp. run_more. by rewrite Hh, Hp. }
  right; right. exists r, h, p. subst uid.
  by destruct (accept_run now newId db rid (to r) r h p Hr eq_refl Hst Hexp Hh Hp)
    as [_ ->].
Qed.

(** Every way a Decline call can go, by the store it leaves. *)
Lemma decline_cases (rid : N) (caller : option N) (db : Db) :
  let res := decline rid caller db in
  store_after res = db ∨
  (∃ r, requests db !! rid = Some r ∧ caller = Some (to r) ∧
        response res = Res 200 (Message "Request declined") ∧
        store_after res
        = {| users :=
               match users db !! to r with
               | Some u =>
                   alter (set_listenTogetherRequests
                            (withoutRequest rid (listenTogetherRequests u)))
                         (to r) (users db)
               | None => users db
               end;
             sessions := sessions db;
             requests := alter (set_status declined) rid (requests db) |}).
Proof.
  intros res. subst res.
  destruct caller as [uid|]; [|by left].
  destruct (requests db !! rid) as [r|] eqn:Hr;
    [|left; unfold decline; run_more; by rewrite Hr].
  destruct (N.eqb_spec (to r) uid) as [Hto|Hto];
    [|left; unfold decline; run_more; rewrite Hr;
      apply N.eqb_neq in Hto; by rewrite Hto].
  right. exists r. subst uid. split; [done|]. split; [done|].
  split; [|by apply decline_store].
  by destruct (decline_sets_declined db rid r Hr) as [-> _].
Qed.



(** X18. Only the recipient writes an invitation.  An Accept or a Decline
    call changes the store only when the invitation it names is stored
    and the caller is its recipient. *)
Theorem invitation_written_by_recipient_only (now : Z) (newId rid : N)
    (caller : option N) (db : Db) :
  store_after (accept now newId rid caller db) ≠ db ∨
  store_after (decline rid caller db) ≠ db →
  ∃ r, requests db !! rid = Some r ∧ caller = Some (to r).
Proof.
  intros [H|H].
  - destruct (accept_cases now newId rid caller db)
      as [Heq|[(r & Hr & _ & Hc & _)|(r & h & p & Hr & _ & Hc & _)]];
      [done|by eauto|by eauto].
  - destruct (decline_cases rid caller db) as [Heq|(r & Hr & Hc & _)];
      [done|by eauto].
Qed.

Lemma invitation_written_by_recipient_only_witness :
  ∃ r, requests sample !! 21%N = Some r ∧ Some 2%N = Some (to r).
Proof.
  apply (invitation_written_by_recipient_only 950 12%N 21%N (Some 2%N) sample).
  right. intros Heq.
  apply (f_equal (λ d, status <$> requests d !! 21%N)) in Heq.
  vm_compute in Heq. discriminate.
Defined.

(** ** What any call can do to a stored session *)

Lemma session_step_refl (s : ListenSession) : session_step s s.
Proof. unfold session_step. split; [done|]. split; by left. Qed.

Lemma session_step_ended (now : Z) (s : ListenSession) :
  session_step s (set_ended now s).
Proof.
  unfold session_step. cbn. split; [done|]. split; [by left|]. right. by eauto.
Qed.

Lemma session_step_patch (castTrack : JsValue → option Track)
    (castQueue : JsValue → option (list Track)) (now : Z) (body : SyncBody)
    (s s' : ListenSession) :
  applyPatch castTrack castQueue now body s = Some s' → session_step s s'.
Proof.
  intros Hp. destruct (applyPatch_frame _ _ _ _ _ _ Hp) as (Hh & Hps & Ha & He).
  unfold session_step. split; [done|]. split; left; by eauto.
Qed.

Lemma session_step_leave (now : Z) (uid : N) (s : ListenSession) :
  let remaining := others uid (participants s) in
  let ending := (host s =? uid)%N || (length remaining =? 0)%nat in
  session_step s (let d := set_participants remaining s in
                  if ending then set_ended now d else d).
Proof.
  intros remaining ending. unfold session_step.
  destruct ending eqn:Hend; cbn.
  - split; [done|]. split; [|by eauto]. right. exists uid. by split.
  - split; [done|]. split; [|by eauto]. right. exists uid. split; [done|].
    intros _ ->. subst ending. by rewrite N.eqb_refl in Hend.
Qed.

Lemma same_session_step (m : gmap N ListenSession) (k : N) :
  option_Forall2 session_step (m !! k) (m !! k).
Proof. destruct (m !! k); constructor. apply session_step_refl. Qed.

Lemma alter_session_step (f : ListenSession → ListenSession) (sid : N)
    (m : gmap N ListenSession) (k : N) :
  (∀ s, m !! sid = Some s → session_step s (f s)) →
  option_Forall2 session_step (m !! k) (alter f sid m !! k).
Proof.
  intros Hf. destruct (decide (sid = k)) as [->|Hne].
  - rewrite lookup_alter_eq. destruct (m !! k) as [s|] eqn:Hs; constructor.
    by apply Hf.
  - rewrite lookup_alter_ne by done. apply same_session_step.
Qed.

Lemma endedOf_session_step (now : Z) (h p : User) (m : gmap N ListenSession) (k : N) :
  option_Forall2 session_step (m !! k) (endedOf now p (endedOf now h m) !! k).
Proof.
  rewrite !lookup_endedOf. destruct (m !! k) as [s|]; repeat case_bool_decide;
    cbn; constructor; rewrite ?set_ended_idemp;
    first [apply session_step_ended | apply session_step_refl].
Qed.

Lemma invite_sessions (now : Z) (newId userId : N) (caller : option N) (db : Db) :
  sessions (invite now newId userId caller db).2 = sessions db.
Proof.
  unfold invite. destruct caller as [fid|]; [|done].
  destruct (userId =? fid)%N; [done|].
  destruct (users db !! fid) as [f|]; [|done].
  destruct (users db !! userId) as [t|]; [|done].
  destruct (areFriends f userId); [|done].
  by destruct (existingRequest fid userId db).
Qed.

Lemma getActive_sessions (caller : option N) (db : Db) :
  sessions (store_after (getActive caller db)) = sessions db ∧
  requests (store_after (getActive caller db)) = requests db.
Proof.
  pose proof (getActive_cases caller db) as H. cbv beta iota zeta in H.
  destruct caller as [uid|]; [|by destruct H as [_ ->]].
  destruct (users db !! uid) as [u|]; [|by destruct H as [_ ->]].
  destruct (activeListenSession u) as [sid|]; [|by destruct H as [_ ->]].
  destruct (stalePointer db sid); by destruct H as [_ ->].
Qed.

Section Steps.

Variable castTrack : JsValue → option Track.
Variable castQueue : JsValue → option (list Track).

(** One call, seen from one session identifier: either the call is an
    accept that has just created the session under it, or the session
    stored under it, if any, has made one [session_step]. *)
Lemma serve_session_step (caller : option N) (c : ApiCall) (db : Db) (k : N) :
  let db' := serve castTrack castQueue caller c db in
  (∃ now rid h p, c = AcceptInvitation now k rid ∧
                  sessions db' !! k = Some (newSession now h p)) ∨
  option_Forall2 session_step (sessions db !! k) (sessions db' !! k).
Proof.
  intros db'. subst db'. destruct c as [now newId userId|now newId rid|rid|
    |now sid body|sid|now sid|now sid]; cbn [serve].
  - right. rewrite invite_sessions. apply same_session_step.
  - destruct (accept_cases now newId rid caller db)
      as [->|[(r & _ & _ & _ & _ & ->)|(r & h & p & _ & _ & _ & _ & _ & _ & ->)]].
    + right. apply same_session_step.
    + right. apply same_session_step.
    + run_more. destruct (decide (k = newId)) as [->|Hne].
      * left. exists now, rid, (from r), (to r). by rewrite lookup_insert_eq.
      * right. rewrite lookup_insert_ne by done. apply endedOf_session_step.
  - right. destruct (decline_cases rid caller db) as [->|(r & _ & _ & _ & ->)];
      apply same_session_step.
  - right. destruct (getActive_sessions caller db) as [-> _].
    apply same_session_step.
  - right. destruct (sync_cases castTrack castQueue now sid caller body db)
      as [[-> _]|(s & s' & Hs & _ & _ & Hp & _ & ->)];
      [apply same_session_step|].
    run_more. destruct (decide (sid = k)) as [->|Hne].
    + rewrite lookup_insert_eq, Hs. constructor.
      by apply (session_step_patch castTrack castQueue now body).
    + rewrite lookup_insert_ne by done. apply same_session_step.
  - right. destruct (readState_cases sid caller db) as [-> _].
    apply same_session_step.
  - right. pose proof (leave_cases now sid caller db) as H.
    cbv beta iota zeta in H.
    destruct caller as [uid|]; [|destruct H as [_ ->]; apply same_session_step].
    destruct (sessions db !! sid) as [s|] eqn:Hs;
      [|destruct H as [_ ->]; apply same_session_step].
    destruct (users db !! uid) as [u|];
      [|destruct H as [_ ->]; apply same_session_step].
    destruct H as [_ ->]. run_more. apply alter_session_step.
    intros s0 Hs0. assert (s0 = s) as -> by congruence.
    apply session_step_leave.
  - right. pose proof (endSession_cases now sid caller db) as H.
    cbv beta iota zeta in H.
    destruct caller as [uid|]; [|destruct H as [_ ->]; apply same_session_step].
    destruct (sessions db !! sid) as [s|] eqn:Hs;
      [|destruct H as [_ ->]; apply same_session_step].
    destruct (host s =? uid)%N;
      [|destruct H as [_ ->]; apply same_session_step].
    destruct H as [_ ->]. run_more. apply alter_session_step.
    intros s0 _. apply session_step_ended.
Qed.

(** A property kept by every call is kept by every history of calls. *)
Lemma replay_invariant (P : Db → Prop) :
  (∀ caller c db, drawsFresh c db = true → P db →
                  P (serve castTrack castQueue caller c db)) →
  ∀ history db, freshHistory castTrack castQueue history db = true →
                P db → P (replay castTrack castQueue history db).
Proof.
  intros Hstep history. induction history as [|[caller c] rest IH];
    intros db Hfresh HP; [done|].
  cbn in Hfresh. apply andb_prop in Hfresh as [Hc Hrest].
  cbn. apply IH; [done|]. by apply Hstep.
Qed.

End Steps.

(** ** Invariants of the stored sessions *)

Lemma option_Forall2_Some_l {A} (R : A → A → Prop) (x : A) (o : option A) :
  option_Forall2 R (Some x) o → ∃ y, o = Some y ∧ R x y.
Proof. intros H. inversion H; subst. by eauto. Qed.

Lemma option_Forall2_Some_r {A} (R : A → A → Prop) (o : option A) (y : A) :
  option_Forall2 R o (Some y) → ∃ x, o = Some x ∧ R x y.
Proof. intros H. inversion H; subst. by eauto. Qed.


Lemma session_ok_step (s s' : ListenSession) :
  session_ok s → session_step s s' → session_ok s'.
Proof.
  intros [Hae Hhost] (Hh & Hps & Hact). split.
  - destruct Hact as [[-> ->]|[-> [d ->]]]; [done|]. by split.
  - intros Ha'. rewrite Hh.
    assert (isActive s = true) as Ha
      by (destruct Hact as [[<- _]|[Hf _]]; congruence).
    destruct Hps as [->|(u & -> & Hu)]; [by apply Hhost|].
    apply others_spec. split; [by apply Hhost|]. intros Heq.
    by apply (Hu Ha').
Qed.

Lemma session_ok_new (now : Z) (h p : N) : session_ok (newSession now h p).
Proof. split; [done|]. intros _. cbn. set_solver. Qed.

Section SessionInvariants.

Variable castTrack : JsValue → option Track.
Variable castQueue : JsValue → option (list Track).

Lemma sessions_ok_serve (caller : option N) (c : ApiCall) (db : Db) :
  sessions_ok db → sessions_ok (serve castTrack castQueue caller c db).
Proof.
  intros Hok k s' Hs'.
  destruct (serve_session_step castTrack castQueue caller c db k)
    as [(now & rid & h & p & _ & Hnew)|Hstep].
  - rewrite Hnew in Hs'. injection Hs' as <-. apply session_ok_new.
  - rewrite Hs' in Hstep.
    apply option_Forall2_Some_r in Hstep as (s & Hs & Hst).
    apply (session_ok_step s); [|done]. by apply (Hok k).
Qed.

(** X19. Two invariants of every stored session, kept by every history of
    calls, whoever the callers and whatever the arguments: a session is
    active exactly when it has no [endedAt], and an active session lists
    its host among its participants. *)
Theorem sessions_ok_kept (history : list (option N * ApiCall)) (db : Db) :
  sessions_ok db → sessions_ok (replay castTrack castQueue history db).
Proof.
  revert db. induction history as [|[caller c] rest IH]; intros db Hok; [done|].
  cbn. apply IH. by apply sessions_ok_serve.
Qed.

(** X20. Sessions are single use.  Along every history of calls whose new
    identifiers are fresh, a stored session is never deleted, keeps its
    host, gains no participant, and once inactive is never active again. *)
Theorem session_never_revived (history : list (option N * ApiCall)) (db : Db)
    (k : N) (s : ListenSession) :
  freshHistory castTrack castQueue history db = true →
  sessions db !! k = Some s →
  ∃ s', sessions (replay castTrack castQueue history db) !! k = Some s' ∧
        host s' = host s ∧ participants s' ⊆ participants s ∧
        (isActive s = false → isActive s' = false).
Proof.
  intros Hfresh Hs.
  apply (replay_invariant castTrack castQueue
           (λ d, ∃ s', sessions d !! k = Some s' ∧ host s' = host s ∧
                       participants s' ⊆ participants s ∧
                       (isActive s = false → isActive s' = false)));
    [|done|by eauto].
  clear. intros caller c db Hc (s1 & Hs1 & Hh1 & Hp1 & Ha1).
  destruct (serve_session_step castTrack castQueue caller c db k)
    as [(now & rid & h & p & -> & _)|Hstep].
  - cbn in Hc. apply bool_decide_eq_true in Hc.
    exfalso. apply Hc. apply elem_of_dom. by eauto.
  - rewrite Hs1 in Hstep.
    apply option_Forall2_Some_l in Hstep as (s2 & Hs2 & Hh & Hps & Hact).
    exists s2. split; [done|]. split; [congruence|]. split.
    + destruct Hps as [->|(u & -> & _)]; [done|].
      intros x Hx. apply others_spec in Hx as [Hx _]. by apply Hp1.
    + intros Hf. specialize (Ha1 Hf).
      destruct Hact as [[-> _]|[-> _]]; done.
Qed.

End SessionInvariants.

Lemma sample_sessions (k : N) (s : ListenSession) :
  sessions sample !! k = Some s → s = session10 ∨ s = session11.
Proof.
  cbn [sessions sample]. intros Hk.
  destruct (decide (k = 10%N)) as [->|H10].
  { vm_compute in Hk. injection Hk as <-. by left. }
  destruct (decide (k = 11%N)) as [->|H11].
  { vm_compute in Hk. injection Hk as <-. by right. }
  by rewrite lookup_insert_ne, lookup_singleton_ne in Hk.
Qed.

Lemma sample_sessions_ok : sessions_ok sample.
Proof.
  intros k s Hk. destruct (sample_sessions k s Hk) as [-> | ->];
    (split; [done|]; intros _; cbn; set_solver).
Qed.

Lemma sessions_ok_kept_witness :
  sessions_ok (replay objectTrack arrayQueue sample_history sample).
Proof.
  apply (sessions_ok_kept objectTrack arrayQueue sample_history sample).
  exact sample_sessions_ok.
Defined.

Lemma session_never_revived_witness :
  let db := store_after (endSession 700 10%N (Some 1%N) sample) in
  (isActive <$> sessions db !! 10%N) = Some false ∧
  ∃ s', sessions (replay objectTrack arrayQueue sample_history db) !! 10%N
        = Some s' ∧
        host s' = 1%N ∧ participants s' ⊆ [1%N; 2%N] ∧ isActive s' = false.
Proof.
  intros db. split; [vm_compute; reflexivity|].
  destruct (session_never_revived objectTrack arrayQueue sample_history db
              10%N (set_ended 700 session10)
              ltac:(vm_compute; reflexivity) ltac:(vm_compute; reflexivity))
    as (s' & Hs' & Hh & Hp & Ha).
  exists s'. split; [done|]. split; [done|]. split; [done|]. by apply Ha.
Defined.

(** ** Invariants of the stored invitations *)

(** Every way an Invite call can go, by the store it leaves. *)
Lemma invite_cases (now : Z) (newId userId : N) (caller : option N) (db : Db) :
  (invite now newId userId caller db).2 = db ∨
  ∃ fid t, caller = Some fid ∧ users db !! userId = Some t ∧
           existingRequest fid userId db = false ∧
           (invite now newId userId caller db).2 = invited now newId userId fid t db.
Proof.
  unfold invite. destruct caller as [fid|]; [|by left].
  destruct (userId =? fid)%N; [by left|].
  destruct (users db !! fid) as [f|]; [|by left].
  destruct (users db !! userId) as [t|]; [|by left].
  destruct (areFriends f userId); [|by left].
  destruct (existingRequest fid userId db) eqn:Hex; [by left|].
  right. by eauto 10.
Qed.

Lemma request_step_refl (r : ListenTogetherRequest) : request_step r r.
Proof. unfold request_step. repeat split. by left. Qed.

Lemma same_request_step (m : gmap N ListenTogetherRequest) (k : N) :
  option_Forall2 request_step (m !! k) (m !! k).
Proof. destruct (m !! k); constructor. apply request_step_refl. Qed.

Lemma alter_request_step (f : ListenTogetherRequest → ListenTogetherRequest)
    (rid : N) (m : gmap N ListenTogetherRequest) (k : N) :
  (∀ r, m !! rid = Some r → request_step r (f r)) →
  option_Forall2 request_step (m !! k) (alter f rid m !! k).
Proof.
  intros Hf. destruct (decide (rid = k)) as [->|Hne].
  - rewrite lookup_alter_eq. destruct (m !! k) as [r|] eqn:Hr; constructor.
    by apply Hf.
  - rewrite lookup_alter_ne by done. apply same_request_step.
Qed.

Section InvitationInvariants.

Variable castTrack : JsValue → option Track.
Variable castQueue : JsValue → option (list Track).

(** One call, seen from one invitation identifier: either the call is an
    invite that has just stored the invitation under it, no other one
    between the two users being pending, or the invitation stored under
    it, if any, has made one [request_step]. *)
Lemma serve_request_step (caller : option N) (c : ApiCall) (db : Db) (k : N) :
  let db' := serve castTrack castQueue caller c db in
  (∃ now userId fid,
     c = InviteFriend now k userId ∧
     requests db' !! k = Some (newRequest now fid userId) ∧
     existingRequest fid userId db = false ∧
     ∀ j, j ≠ k → requests db' !! j = requests db !! j) ∨
  option_Forall2 request_step (requests db !! k) (requests db' !! k).
Proof.
  intros db'. subst db'. destruct c as [now newId userId|now newId rid|rid|
    |now sid body|sid|now sid|now sid]; cbn [serve].
  - destruct (invite_cases now newId userId caller db)
      as [->|(fid & t & _ & _ & Hex & ->)]; [right; apply same_request_step|].
    unfold invited. run_more. destruct (decide (k = newId)) as [->|Hne].
    + left. exists now, userId, fid. rewrite lookup_insert_eq.
      repeat split; try done. intros j Hj. by rewrite lookup_insert_ne.
    + right. rewrite lookup_insert_ne by done. apply same_request_step.
  - right. destruct (accept_cases now newId rid caller db)
      as [->|[(r & Hr & Hst & _ & _ & ->)
             |(r & h & p & Hr & Hst & _ & _ & _ & _ & ->)]].
    + apply same_request_step.
    + run_more. apply alter_request_step. intros r0 Hr0.
      assert (r0 = r) as -> by congruence.
      unfold request_step. cbn. repeat split. right; left. by eauto.
    + run_more. apply alter_request_step. intros r0 Hr0.
      assert (r0 = r) as -> by congruence.
      unfold request_step. cbn. repeat split. right; right; left. by eauto.
  - right. destruct (decline_cases rid caller db) as [->|(r & Hr & _ & _ & ->)];
      [apply same_request_step|].
    run_more. apply alter_request_step. intros r0 _.
    unfold request_step. cbn. repeat split. by right; right; right.
  - right. destruct (getActive_sessions caller db) as [_ ->].
    apply same_request_step.
  - right. destruct (sync_cases castTrack castQueue now sid caller body db)
      as [[-> _]|(s & s' & _ & _ & _ & _ & _ & ->)]; apply same_request_step.
  - right. destruct (readState_cases sid caller db) as [-> _].
    apply same_request_step.
  - right. pose proof (leave_cases now sid caller db) as H.
    cbv beta iota zeta in H.
    destruct caller as [uid|]; [|destruct H as [_ ->]; apply same_request_step].
    destruct (sessions db !! sid) as [s|];
      [|destruct H as [_ ->]; apply same_request_step].
    destruct (users db !! uid) as [u|]; destruct H as [_ ->];
      apply same_request_step.
  - right. pose proof (endSession_cases now sid caller db) as H.
    cbv beta iota zeta in H.
    destruct caller as [uid|]; [|destruct H as [_ ->]; apply same_request_step].
    destruct (sessions db !! sid) as [s|];
      [|destruct H as [_ ->]; apply same_request_step].
    destruct (host s =? uid)%N; destruct H as [_ ->]; apply same_request_step.
Qed.

Lemma request_step_pending (r r' : ListenTogetherRequest) :
  request_step r r' → status r' = pending →
  status r = pending ∧ from r = from r' ∧ to r = to r' ∧ sessionId r' = sessionId r.
Proof.
  intros (Hf & Ht & _ & [[Hs Hi]|[(_ & Hs & _)|[(_ & Hs & _)|[Hs _]]]]) Hp;
    try congruence.
  repeat split; congruence.
Qed.

Lemma unique_pending_serve (caller : option N) (c : ApiCall) (db : Db) :
  unique_pending db → unique_pending (serve castTrack castQueue caller c db).
Proof.
  intros Huniq i j ri rj Hi Hj Hsi Hsj Hf Ht.
  assert (Hnew : ∀ a b ra rb now userId fid,
            requests (serve castTrack castQueue caller c db) !! a = Some ra →
            requests (serve castTrack castQueue caller c db) !! b = Some rb →
            status rb = pending → from ra = from rb → to ra = to rb →
            requests (serve castTrack castQueue caller c db) !! a
            = Some (newRequest now fid userId) →
            existingRequest fid userId db = false →
            (∀ j, j ≠ a → requests (serve castTrack castQueue caller c db) !! j
                         = requests db !! j) →
            a = b).
  { intros a b ra rb now userId fid Ha Hb Hsb Hfab Htab Hnewa Hex Hother.
    destruct (decide (a = b)) as [|Hab]; [done|]. exfalso.
    rewrite Hother in Hb by done. rewrite Ha in Hnewa. injection Hnewa as ->.
    cbn in Hfab, Htab. apply not_true_iff_false in Hex. apply Hex.
    apply existingRequest_true. by eauto 10. }
  destruct (serve_request_step caller c db i)
    as [(now & userId & fid & _ & Hnewi & Hex & Hother)|Hstepi].
  { by apply (Hnew i j ri rj now userId fid). }
  destruct (serve_request_step caller c db j)
    as [(now & userId & fid & _ & Hnewj & Hex & Hother)|Hstepj].
  { symmetry. by apply (Hnew j i rj ri now userId fid). }
  rewrite Hi in Hstepi. rewrite Hj in Hstepj.
  apply option_Forall2_Some_r in Hstepi as (ri0 & Hri0 & Hsti).
  apply option_Forall2_Some_r in Hstepj as (rj0 & Hrj0 & Hstj).
  destruct (request_step_pending ri0 ri Hsti Hsi) as (? & ? & ? & _).
  destruct (request_step_pending rj0 rj Hstj Hsj) as (? & ? & ? & _).
  apply (Huniq i j ri0 rj0); congruence.
Qed.

(** X21. At most one pending invitation from one user to another: a store
    with that property keeps it through every history of calls. *)
Theorem unique_pending_kept (history : list (option N * ApiCall)) (db : Db) :
  unique_pending db → unique_pending (replay castTrack castQueue history db).
Proof.
  revert db. induction history as [|[caller c] rest IH]; intros db Hok; [done|].
  cbn. apply IH. by apply unique_pending_serve.
Qed.

(** X22. An invitation's sender, recipient and deadline never change.
    Along every history of calls whose new identifiers are fresh, a stored
    invitation is never deleted, keeps those three fields, and once it has
    left the pending status never is pending again. *)
Theorem invitation_fields_immutable (history : list (option N * ApiCall)) (db : Db)
    (k : N) (r : ListenTogetherRequest) :
  freshHistory castTrack castQueue history db = true →
  requests db !! k = Some r →
  ∃ r', requests (replay castTrack castQueue history db) !! k = Some r' ∧
        from r' = from r ∧ to r' = to r ∧ expiresAt r' = expiresAt r ∧
        (status r ≠ pending → status r' ≠ pending).
Proof.
  intros Hfresh Hr.
  apply (replay_invariant castTrack castQueue
           (λ d, ∃ r', requests d !! k = Some r' ∧
                       from r' = from r ∧ to r' = to r ∧
                       expiresAt r' = expiresAt r ∧
                       (status r ≠ pending → status r' ≠ pending)));
    [|done|by eauto 10].
  clear. intros caller c db Hc (r1 & Hr1 & Hf1 & Ht1 & He1 & Hs1).
  destruct (serve_request_step caller c db k)
    as [(now & userId & fid & -> & _)|Hstep].
  - cbn in Hc. apply bool_decide_eq_true in Hc.
    exfalso. apply Hc. apply elem_of_dom. by eauto.
  - rewrite Hr1 in Hstep.
    apply option_Forall2_Some_l in Hstep as (r2 & Hr2 & Hst).
    exists r2. split; [done|].
    pose proof Hst as (Hf & Ht & He & _).
    repeat split; try congruence.
    intros Hnp Hp2. destruct (request_step_pending r1 r2 Hst Hp2) as [Hp1 _].
    by apply (Hs1 Hnp).
Qed.

(** X23. An invitation is bound to a session once.  In a store whose
    pending invitations have no session identifier, they still have none
    after every history of calls with fresh identifiers, and a session
    identifier that an invitation holds is the one it holds ever after. *)
Theorem invitation_session_bound_once (history : list (option N * ApiCall))
    (db : Db) (k : N) (r : ListenTogetherRequest) (sid : N) :
  freshHistory castTrack castQueue history db = true →
  pending_unbound db →
  requests db !! k = Some r →
  sessionId r = Some sid →
  pending_unbound (replay castTrack castQueue history db) ∧
  ∃ r', requests (replay castTrack castQueue history db) !! k = Some r' ∧
        sessionId r' = Some sid.
Proof.
  intros Hfresh Hpu Hr Hsid.
  apply (replay_invariant castTrack castQueue
           (λ d, pending_unbound d ∧
                 ∃ r', requests d !! k = Some r' ∧ sessionId r' = Some sid));
    [|done|by eauto 10].
  clear. intros caller c db Hc (Hpu & r1 & Hr1 & Hs1). split.
  - intros j rj Hj Hpj.
    destruct (serve_request_step caller c db j)
      as [(now & userId & fid & _ & Hnew & _)|Hstep].
    + rewrite Hj in Hnew. by injection Hnew as ->.
    + rewrite Hj in Hstep.
      apply option_Forall2_Some_r in Hstep as (rj0 & Hrj0 & Hst).
      destruct (request_step_pending rj0 rj Hst Hpj) as (Hp0 & _ & _ & ->).
      by apply (Hpu j).
  - destruct (serve_request_step caller c db k)
      as [(now & userId & fid & -> & _)|Hstep].
    + cbn in Hc. apply bool_decide_eq_true in Hc.
      exfalso. apply Hc. apply elem_of_dom. by eauto.
    + rewrite Hr1 in Hstep.
      apply option_Forall2_Some_l in Hstep as (r2 & Hr2 & Hst).
      exists r2. split; [done|].
      destruct Hst as (_ & _ & _ & [[_ ->]|[(_ & _ & ->)|[(Hp & _)|[_ ->]]]]);
        try done.
      rewrite (Hpu k r1 Hr1 Hp) in Hs1. discriminate.
Qed.

End InvitationInvariants.

Lemma sample_requests (k : N) (r : ListenTogetherRequest) :
  requests sample !! k = Some r →
  r = mkRequest 1%N 2%N accepted (Some 10%N) 900 ∨
  r = mkRequest 3%N 2%N pending None 1000.
Proof.
  cbn [requests sample]. intros Hk.
  destruct (decide (k = 20%N)) as [->|H20].
  { vm_compute in Hk. injection Hk as <-. by left. }
  destruct (decide (k = 21%N)) as [->|H21].
  { vm_compute in Hk. injection Hk as <-. by right. }
  by rewrite lookup_insert_ne, lookup_singleton_ne in Hk.
Qed.

Lemma sample_pending_unbound : pending_unbound sample.
Proof.
  intros k r Hk Hp. by destruct (sample_requests k r Hk) as [-> | ->].
Qed.

Lemma unique_pending_kept_witness :
  unique_pending (replay objectTrack arrayQueue sample_history_invitations sample).
Proof.
  apply (unique_pending_kept objectTrack arrayQueue sample_history_invitations sample).
  exact sample_unique_pending.
Defined.

Lemma invitation_fields_immutable_witness :
  ∃ r', requests (replay objectTrack arrayQueue sample_history_invitations sample)
          !! 20%N = Some r' ∧
        from r' = 1%N ∧ to r' = 2%N ∧ expiresAt r' = 900 ∧ status r' ≠ pending.
Proof.
  destruct (invitation_fields_immutable objectTrack arrayQueue
              sample_history_invitations sample 20%N
              (mkRequest 1%N 2%N accepted (Some 10%N) 900)
              ltac:(vm_compute; reflexivity) ltac:(vm_compute; reflexivity))
    as (r' & Hr' & Hf & Ht & He & Hs).
  exists r'. repeat split; try done. by apply Hs.
Defined.

Lemma invitation_session_bound_once_witness :
  ∃ r', requests (replay objectTrack arrayQueue sample_history_invitations sample)
          !! 20%N = Some r' ∧
        sessionId r' = Some 10%N.
Proof.
  apply (invitation_session_bound_once objectTrack arrayQueue
           sample_history_invitations sample 20%N
           (mkRequest 1%N 2%N accepted (Some 10%N) 900) 10%N
           ltac:(vm_compute; reflexivity) sample_pending_unbound
           ltac:(vm_compute; reflexivity) ltac:(reflexivity)).
Defined.

(** ** The invariant of the active-session pointers *)

(** The pointer a user holds after the update of one user document. *)
Lemma alter_pointer (f : User → User) (i : N) (m : gmap N User) (v : N) (u' : User) :
  (∀ u, activeListenSession (f u) = activeListenSession u ∨
        activeListenSession (f u) = None) →
  alter f i m !! v = Some u' →
  ∃ u, m !! v = Some u ∧
       (activeListenSession u' = activeListenSession u ∨
        activeListenSession u' = None).
Proof.
  intros Hf. rewrite lookup_alter.
  destruct (decide (i = v)) as [->|_]; [|intros Hv; exists u'; by eauto].
  destruct (m !! v) as [u|]; cbn; [|done]. intros [= <-]. by eauto.
Qed.

Lemma unset_pointer (ids : list N) (m : gmap N User) (v : N) (u' : User) :
  foldr (alter (set_activeListenSession None)) m ids !! v = Some u' →
  ∃ u, m !! v = Some u ∧
       (activeListenSession u' = activeListenSession u ∨
        activeListenSession u' = None).
Proof.
  rewrite lookup_unset.
  destruct (bool_decide (v ∈ ids)); [|intros Hv; exists u'; by eauto].
  destruct (m !! v) as [u|]; cbn; [|done]. intros [= <-]. by eauto.
Qed.

(** Pointers that are kept or cleared over unchanged sessions stay sound. *)
Lemma pointers_sound_frame (db db' : Db) :
  sessions db' = sessions db →
  (∀ v u', users db' !! v = Some u' →
           ∃ u, users db !! v = Some u ∧
                (activeListenSession u' = activeListenSession u ∨
                 activeListenSession u' = None)) →
  pointers_sound db → pointers_sound db'.
Proof.
  intros Hs Hu Hok v u' sid Hv Hptr. rewrite Hs.
  destruct (Hu v u' Hv) as (u & Hvu & [Heq|Hnone]); [|congruence].
  apply (Hok v u); congruence.
Qed.

Section PointerInvariant.

Variable castTrack : JsValue → option Track.
Variable castQueue : JsValue → option (list Track).

Lemma pointers_sound_accept (now : Z) (newId rid : N) (db : Db)
    (r : ListenTogetherRequest) (h p : User) :
  newId ∉ dom (sessions db) →
  pointers_sound db →
  pointers_sound
    {| users :=
         alter (λ d, set_listenTogetherRequests
                       (withoutRequest rid (listenTogetherRequests p))
                       (set_activeListenSession (Some newId) d)) (to r)
           (alter (set_activeListenSession (Some newId)) (from r) (users db));
       sessions :=
         <[newId := newSession now (from r) (to r)]>
           (endedOf now p (endedOf now h (sessions db)));
       requests :=
         alter (λ d, set_sessionId (Some newId) (set_status accepted d))
               rid (requests db) |}.
Proof.
  intros Hfresh Hok v u' sid Hv Hptr. run_more. cbn [users] in Hv.
  assert (Hmember : v = to r ∨ v = from r →
            sid = newId ∧ v ∈ participants (newSession now (from r) (to r))).
  { intros Hvr. split; [|cbn; rewrite !elem_of_cons; tauto].
    destruct (decide (to r = v)) as [Hd|Hd].
    - clear Hvr. subst v. rewrite lookup_alter_eq in Hv.
      destruct (alter _ (from r) (users db) !! to r); cbn in Hv; [|done].
      injection Hv as <-. cbn in Hptr. congruence.
    - rewrite lookup_alter_ne in Hv by done.
      destruct Hvr as [-> | ->]; [done|].
      rewrite lookup_alter_eq in Hv.
      destruct (users db !! from r); cbn in Hv; [|done].
      injection Hv as <-. cbn in Hptr. congruence. }
  destruct (decide (v = to r ∨ v = from r)) as [Hvr|Hvr].
  - destruct (Hmember Hvr) as [-> Hin].
    rewrite lookup_insert_eq. by eauto.
  - rewrite !lookup_alter_ne in Hv by (intros Heq; apply Hvr; subst v; tauto).
    destruct (Hok v u' sid Hv Hptr) as (s & Hs & Hin).
    assert (sid ≠ newId) as Hne
      by (intros ->; apply Hfresh, elem_of_dom; by eauto).
    rewrite lookup_insert_ne, !lookup_endedOf, Hs by done.
    repeat case_bool_decide; cbn; eexists; (split; [done|]); cbn; done.
Qed.

Lemma pointers_sound_leave (now : Z) (sid uid : N) (db : Db) (s : ListenSession) :
  sessions db !! sid = Some s →
  pointers_sound db →
  let remaining := others uid (participants s) in
  let ending := (host s =? uid)%N || (length remaining =? 0)%nat in
  pointers_sound
    {| users :=
         alter (set_activeListenSession None) uid
           (if ending
            then foldr (alter (set_activeListenSession None)) (users db) remaining
            else users db);
       sessions :=
         alter (λ d, let d := set_participants remaining d in
                     if ending then set_ended now d else d) sid (sessions db);
       requests := requests db |}.
Proof.
  intros Hs Hok remaining ending v u' sid0 Hv Hptr. run_more. cbn [users] in Hv.
  destruct (decide (v = uid)) as [->|Hvu].
  { rewrite lookup_alter_eq in Hv.
    destruct (_ !! uid); [|done]. injection Hv as <-. done. }
  rewrite lookup_alter_ne in Hv by done.
  assert (∃ u, users db !! v = Some u ∧ activeListenSession u = Some sid0)
    as (u & Hu & Hpu).
  { destruct ending.
    - destruct (unset_pointer _ _ _ _ Hv) as (u & Hu & [Heq|Hn]);
        [exists u; split; congruence|congruence].
    - by eauto. }
  destruct (Hok v u sid0 Hu Hpu) as (s0 & Hs0 & Hin).
  destruct (decide (sid0 = sid)) as [->|Hne].
  - assert (s0 = s) as -> by congruence.
    rewrite lookup_alter_eq, Hs. cbn [fmap option_fmap option_map].
    eexists. split; [done|].
    destruct ending; cbn; [done|].
    intros Ha. apply others_spec. split; [by apply Hin|done].
  - rewrite lookup_alter_ne by done. by eauto.
Qed.

Lemma pointers_sound_serve (caller : option N) (c : ApiCall) (db : Db) :
  drawsFresh c db = true →
  pointers_sound db → pointers_sound (serve castTrack castQueue caller c db).
Proof.
  intros Hfresh Hok. destruct c as [now newId userId|now newId rid|rid|
    |now sid body|sid|now sid|now sid]; cbn [serve].
  - destruct (invite_cases now newId userId caller db)
      as [->|(fid & t & _ & _ & _ & ->)]; [done|].
    apply (pointers_sound_frame db); [done| |done].
    intros v u'. unfold invited. run_more. apply alter_pointer. by left.
  - cbn in Hfresh. apply bool_decide_eq_true in Hfresh.
    destruct (accept_cases now newId rid caller db)
      as [->|[(r & _ & _ & _ & _ & ->)|(r & h & p & _ & _ & _ & _ & _ & _ & ->)]].
    + done.
    + apply (pointers_sound_frame db); [done| |done]. by eauto.
    + by apply pointers_sound_accept.
  - destruct (decline_cases rid caller db) as [->|(r & _ & _ & _ & ->)]; [done|].
    apply (pointers_sound_frame db); [done| |done].
    intros v u'. run_more. destruct (users db !! to r); [|by eauto].
    apply alter_pointer. by left.
  - pose proof (getActive_cases caller db) as H. cbv beta iota zeta in H.
    destruct caller as [uid|]; [|by destruct H as [_ ->]].
    destruct (users db !! uid) as [u|]; [|by destruct H as [_ ->]].
    destruct (activeListenSession u) as [sid|]; [|by destruct H as [_ ->]].
    destruct (stalePointer db sid); destruct H as [_ ->]; [|done].
    apply (pointers_sound_frame db); [done| |done].
    intros v u'. run_more. apply alter_pointer. by right.
  - destruct (sync_cases castTrack castQueue now sid caller body db)
      as [[-> _]|(s & s' & Hs & _ & _ & Hp & _ & ->)]; [done|].
    intros v u sid0 Hv Hptr. run_more. cbn [users] in Hv.
    destruct (Hok v u sid0 Hv Hptr) as (s0 & Hs0 & Hin).
    destruct (decide (sid0 = sid)) as [->|Hne].
    + assert (s0 = s) as -> by congruence.
      destruct (applyPatch_frame _ _ _ _ _ _ Hp) as (_ & Hps & Ha & _).
      rewrite lookup_insert_eq. exists s'. split; [done|]. by rewrite Hps, Ha.
    + rewrite lookup_insert_ne by done. by eauto.
  - by destruct (readState_cases sid caller db) as [-> _].
  - pose proof (leave_cases now sid caller db) as H. cbv beta iota zeta in H.
    destruct caller as [uid|]; [|by destruct H as [_ ->]].
    destruct (sessions db !! sid) as [s|] eqn:Hs; [|by destruct H as [_ ->]].
    destruct (users db !! uid) as [u|]; destruct H as [_ ->]; [|done].
    by apply pointers_sound_leave.
  - pose proof (endSession_cases now sid caller db) as H. cbv beta iota zeta in H.
    destruct caller as [uid|]; [|by destruct H as [_ ->]].
    destruct (sessions db !! sid) as [s|] eqn:Hs; [|by destruct H as [_ ->]].
    destruct (host s =? uid)%N; destruct H as [_ ->]; [|done].
    intros v u' sid0 Hv Hptr. run_more. cbn [users] in Hv.
    destruct (unset_pointer _ _ _ _ Hv) as (u & Hu & [Heq|Hn]); [|congruence].
    destruct (Hok v u sid0 Hu ltac:(congruence)) as (s0 & Hs0 & Hin).
    destruct (decide (sid0 = sid)) as [->|Hne].
    + rewrite lookup_alter_eq, Hs0. cbn. eexists. split; [done|]. done.
    + rewrite lookup_alter_ne by done. by eauto.
Qed.

(** X24. No pointer into a session one is not in.  In a store where every
    active-session pointer names a stored session and, if that session is
    active, belongs to one of its participants, the same holds after every
    history of calls with fresh identifiers.  (The converse fails: a
    participant of an active session may hold no pointer to it.) *)
Theorem pointers_sound_kept (history : list (option N * ApiCall)) (db : Db) :
  freshHistory castTrack castQueue history db = true →
  pointers_sound db →
  pointers_sound (replay castTrack castQueue history db).
Proof.
  intros Hfresh Hok.
  by apply (replay_invariant castTrack castQueue pointers_sound
              pointers_sound_serve).
Qed.

End PointerInvariant.

Lemma sample_pointers (v : N) (u : User) (sid : N) :
  users sample !! v = Some u → activeListenSession u = Some sid →
  (sid = 10%N ∧ (v = 1%N ∨ v = 2%N)) ∨ (sid = 11%N ∧ v = 3%N).
Proof.
  cbn [users sample]. intros Hv Hptr.
  destruct (decide (v = 1%N)) as [->|H1].
  { vm_compute in Hv. injection Hv as <-. injection Hptr as <-. by eauto. }
  destruct (decide (v = 2%N)) as [->|H2].
  { vm_compute in Hv. injection Hv as <-. injection Hptr as <-. by eauto. }
  destruct (decide (v = 3%N)) as [->|H3].
  { vm_compute in Hv. injection Hv as <-. injection Hptr as <-. by eauto. }
  by rewrite lookup_insert_ne, lookup_insert_ne, lookup_singleton_ne in Hv.
Qed.

Lemma sample_pointers_sound : pointers_sound sample.
Proof.
  intros v u sid Hv Hptr.
  destruct (sample_pointers v u sid Hv Hptr) as [[-> Hv']|[-> ->]].
  - exists session10. split; [vm_compute; reflexivity|]. intros _. cbn.
    rewrite !elem_of_cons. tauto.
  - exists session11. split; [vm_compute; reflexivity|]. intros _. cbn.
    rewrite !elem_of_cons. tauto.
Qed.

Lemma pointers_sound_kept_witness :
  pointers_sound (replay objectTrack arrayQueue sample_history sample).
Proof.
  apply (pointers_sound_kept objectTrack arrayQueue sample_history sample
           ltac:(vm_compute; reflexivity) sample_pointers_sound).
Defined.

(** ** Corollaries for the callers *)

Lemma readState_after_sync_witness :
  let body := mkSyncBody json_track_b JUndefined (JBool false) JUndefined in
  let db' := store_after (sync objectTrack arrayQueue 600 10%N (Some 1%N) body sample) in
  response (readState 10%N (Some 2%N) db')
  = Success (mkStateJson (Some track_b) (mkPlaybackState 12 false 600) [track_a] 1%N).
Proof.
  intros body db'.
  apply (readState_after_sync objectTrack arrayQueue 600 sample 10%N 2%N session10
           body (mkPatch None (Some false) (Some track_b) None)
           ltac:(vm_compute; reflexivity) ltac:(reflexivity)
           ltac:(repeat split; reflexivity)
           ltac:(cbn; rewrite !elem_of_cons; tauto)).
Defined.

(** X25. Only the host's leave ends an active session.  The handler also
    ends a session that a leave has emptied, but a session that is active
    and lists its host cannot be emptied by anyone else: after the leave
    of a user other than the host it is still active and still lists its
    host. *)
Theorem leave_by_other_keeps_session (now : Z) (db : Db) (sid uid : N)
    (s : ListenSession) (u : User) :
  sessions db !! sid = Some s →
  session_ok s →
  isActive s = true →
  users db !! uid = Some u →
  host s ≠ uid →
  ∃ s', sessions (store_after (leave now sid (Some uid) db)) !! sid = Some s' ∧
        isActive s' = true ∧ host s' = host s ∧ host s' ∈ participants s' ∧
        participants s' = others uid (participants s).
Proof.
  intros Hs [_ Hhost] Hact Hu Hne.
  pose proof (leave_cases now sid (Some uid) db) as H. cbv beta iota zeta in H.
  rewrite Hs, Hu in H. destruct H as [_ ->]. run_more.
  rewrite lookup_alter_eq, Hs. cbn [fmap option_fmap option_map].
  assert (Hin : host s ∈ others uid (participants s))
    by (apply others_spec; split; [by apply Hhost|done]).
  apply N.eqb_neq in Hne. rewrite Hne. cbn [orb].
  destruct (others uid (participants s)) as [|q rest] eqn:Hrem;
    [by apply elem_of_nil in Hin|].
  cbn [length Nat.eqb]. eexists. split; [done|]. by repeat split.
Qed.

Lemma leave_by_other_keeps_session_witness :
  ∃ s', sessions (store_after (leave 700 10%N (Some 2%N) sample)) !! 10%N = Some s' ∧
        isActive s' = true ∧ host s' = 1%N ∧ host s' ∈ participants s' ∧
        participants s' = [1%N].
Proof.
  apply (leave_by_other_keeps_session 700 sample 10%N 2%N session10
           (mkUser [1%N; 3%N] [21%N] (Some 10%N))
           ltac:(vm_compute; reflexivity)
           (sample_sessions_ok 10%N session10 ltac:(vm_compute; reflexivity))
           ltac:(reflexivity) ltac:(vm_compute; reflexivity) ltac:(discriminate)).
Defined.

(** X26. GetActive surfaces active sessions only.  Whenever the answer
    carries a session, that session is stored under the caller's pointer
    and is active, and the call has written nothing. *)
Theorem getActive_answers_active_only (caller : option N) (db : Db)
    (code : N) (s : ListenSession) :
  response (getActive caller db) = Res code (ActiveJson (Some s)) →
  isActive s = true ∧
  store_after (getActive caller db) = db ∧
  ∃ uid u sid, caller = Some uid ∧ users db !! uid = Some u ∧
               activeListenSession u = Some sid ∧ sessions db !! sid = Some s.
Proof.
  pose proof (getActive_cases caller db) as H. cbv beta iota zeta in H.
  destruct caller as [uid|]; [|by destruct H as [-> _]].
  destruct (users db !! uid) as [u|] eqn:Hu; [|by destruct H as [-> _]].
  destruct (activeListenSession u) as [sid|] eqn:Hptr; [|by destruct H as [-> _]].
  unfold stalePointer in H.
  destruct (sessions db !! sid) as [s0|] eqn:Hs; [|by destruct H as [-> _]].
  destruct (isActive s0) eqn:Ha; cbn [negb] in H; destruct H as [-> ->]; [|done].
  intros [= _ <-]. by eauto 10.
Qed.

Lemma getActive_answers_active_only_witness :
  isActive session10 = true ∧
  store_after (getActive (Some 2%N) sample) = sample ∧
  ∃ uid u sid, Some 2%N = Some uid ∧ users sample !! uid = Some u ∧
               activeListenSession u = Some sid ∧
               sessions sample !! sid = Some session10.
Proof.
  apply (getActive_answers_active_only (Some 2%N) sample 200%N session10).
  vm_compute; reflexivity.
Defined.
